(** * SiliconCloudImage: a verification development for [main.go]

    The proxy forwards an image-generation request to the upstream API and,
    when the caller asked for [response_format = "b64_json"], downloads every
    returned image concurrently and answers with base64 inline data.

    The development embeds [safeLogHeaders], the JSON shapes declared by the
    struct tags, the [downloadImage] closure, the goroutine/channel fan-out
    and [handleGenerations] itself.  Calls into Go's standard library
    ([encoding/base64], [encoding/json], [net/http]) are modelled at the
    library boundary and their models are marked as such. *)

From Stdlib Require Import ZArith Lia Ascii String Strings.Byte.
From stdpp Require Import gmap strings list fin_maps fin_sets.

Local Open Scope Z_scope.
Set Warnings "-register-all".

(** ** Go's [encoding/base64], [StdEncoding] *)

Module Base64.

(** [encodeStd]: the alphabet of RFC 4648 section 4. *)
Definition encodeStd : string :=
  "ABCDEFGHIJKLMNOPQRSTUVWXYZabcdefghijklmnopqrstuvwxyz0123456789+/".

(** [StdPadding]. *)
Definition padChar : ascii := "="%char.

(** [uint(src[i])]. *)
Definition uint (b : byte) : Z := Z.of_N (Byte.to_N b).

(** [byte(v)]: conversion of an unsigned integer to a byte keeps the low
    eight bits. *)
Definition to_byte (v : Z) : byte :=
  default "000"%byte (Byte.of_N (Z.to_N (Z.land v 255))).

(** [enc.encode[i]]: the alphabet as a 64 entry table. *)
Definition encode (i : Z) : ascii :=
  default "000"%char (String.get (Z.to_nat i) encodeStd).

(** The position of [c] in a string, counted from [i]. *)
Fixpoint index_from (c : ascii) (s : string) (i : Z) : option Z :=
  match s with
  | EmptyString => None
  | String d s' => if Ascii.eqb c d then Some i else index_from c s' (i + 1)
  end.

(** [enc.decodeMap[c]]: the table is filled with [0xFF] and then
    [decodeMap[encoder[i]] = i]. *)
Definition decodeMap (c : ascii) : Z :=
  default 255 (index_from c encodeStd 0).

(** [Encoding.EncodeToString], following the loop of [Encode]: full
    three byte groups first, then the remainder of one or two bytes with
    padding.  No line breaks are written. *)
Fixpoint EncodeToString (src : list byte) : string :=
  match src with
  | [] => EmptyString
  | [b0] =>
      let val := Z.shiftl (uint b0) 16 in
      String (encode (Z.land (Z.shiftr val 18) 63))
        (String (encode (Z.land (Z.shiftr val 12) 63))
           (String padChar (String padChar EmptyString)))
  | [b0; b1] =>
      let val := Z.lor (Z.shiftl (uint b0) 16) (Z.shiftl (uint b1) 8) in
      String (encode (Z.land (Z.shiftr val 18) 63))
        (String (encode (Z.land (Z.shiftr val 12) 63))
           (String (encode (Z.land (Z.shiftr val 6) 63))
              (String padChar EmptyString)))
  | b0 :: b1 :: b2 :: rest =>
      let val := Z.lor (Z.lor (Z.shiftl (uint b0) 16) (Z.shiftl (uint b1) 8))
                       (uint b2) in
      String (encode (Z.land (Z.shiftr val 18) 63))
        (String (encode (Z.land (Z.shiftr val 12) 63))
           (String (encode (Z.land (Z.shiftr val 6) 63))
              (String (encode (Z.land val 63)) (EncodeToString rest))))
  end.

(** A character of the alphabet. *)
Definition valid (c : ascii) : bool := negb (decodeMap c =? 255).

(** [Encoding.DecodeString] on input without line breaks: four
    characters give three bytes; the last group may end in one or two
    padding characters and then gives two bytes or one. *)
Fixpoint DecodeString (s : string) : option (list byte) :=
  match s with
  | EmptyString => Some []
  | String c0 (String c1 (String c2 (String c3 rest))) =>
      if valid c0 && valid c1 then
        let v01 := Z.lor (Z.shiftl (decodeMap c0) 18)
                         (Z.shiftl (decodeMap c1) 12) in
        if valid c2 then
          let v012 := Z.lor v01 (Z.shiftl (decodeMap c2) 6) in
          if valid c3 then
            let val := Z.lor v012 (decodeMap c3) in
            match DecodeString rest with
            | Some out =>
                Some (to_byte (Z.shiftr val 16) :: to_byte (Z.shiftr val 8)
                        :: to_byte val :: out)
            | None => None
            end
          else if Ascii.eqb c3 padChar then
            match rest with
            | EmptyString =>
                Some [to_byte (Z.shiftr v012 16); to_byte (Z.shiftr v012 8)]
            | _ => None
            end
          else None
        else if Ascii.eqb c2 padChar && Ascii.eqb c3 padChar then
          match rest with
          | EmptyString => Some [to_byte (Z.shiftr v01 16)]
          | _ => None
          end
        else None
      else None
  | _ => None
  end.

End Base64.

(** ** Go's [strings] package *)

Module Strings.

Definition is_upper (c : ascii) : bool :=
  (65 <=? nat_of_ascii c)%nat && (nat_of_ascii c <=? 90)%nat.

Definition is_lower (c : ascii) : bool :=
  (97 <=? nat_of_ascii c)%nat && (nat_of_ascii c <=? 122)%nat.

Definition to_lower (c : ascii) : ascii :=
  if is_upper c then ascii_of_nat (nat_of_ascii c + 32) else c.

Definition to_upper (c : ascii) : ascii :=
  if is_lower c then ascii_of_nat (nat_of_ascii c - 32) else c.

Fixpoint map_bytes (f : ascii -> ascii) (s : string) : string :=
  match s with
  | EmptyString => EmptyString
  | String c s' => String (f c) (map_bytes f s')
  end.

(** [strings.EqualFold] for ASCII letters.  Go folds by Unicode simple
    case folding; beyond ASCII only the letters k and s have further
    partners (the Kelvin sign and the long s), and the program compares
    with ["Authorization"] only, which has neither letter. *)
Definition EqualFold (s t : string) : bool :=
  String.eqb (map_bytes to_lower s) (map_bytes to_lower t).

(** [strings.Join]. *)
Definition Join (elems : list string) (sep : string) : string :=
  String.concat sep elems.

(** The double quote, which a string literal cannot hold. *)
Definition dquote : string := String "034"%char EmptyString.

End Strings.

(** ** JSON values and Go's [encoding/json] on the structs of [main.go] *)

Module Json.

(** A JSON text after tokenizing: numbers keep their literal, objects keep
    the order and the repetitions of their keys. *)
Inductive json : Type :=
  | JNull
  | JBool (b : bool)
  | JNumber (lit : string)
  | JString (s : string)
  | JArray (elems : list json)
  | JObject (members : list (string * json)).

(** A Go slice: the elements below [len], the rest of the backing array up
    to [cap], and whether the slice is [nil]. *)
Record slice (A : Type) : Type := mkSlice {
  elems : list A;
  spare : list A;
  is_nil : bool
}.
Arguments mkSlice {A}.
Arguments elems {A}.
Arguments spare {A}.
Arguments is_nil {A}.

Definition nil_slice {A} : slice A := mkSlice [] [] true.
Definition backing {A} (s : slice A) : list A := elems s ++ spare s.

(** [type Image struct]. [ExtraFields] has the tag [json:"-"]: neither
    decoding nor encoding touches it, it stays [nil]. *)
Record Image : Type := mkImage {
  URL : string;
  RevisedPrompt : string;
  ExtraFields : option json
}.

(** [type TimingDetails struct]; a [json.Number] is a string. *)
Record TimingDetails : Type := mkTimingDetails {
  Inference : string
}.

(** [type OriginResponse struct]. *)
Record OriginResponse : Type := mkOriginResponse {
  Images : slice Image;
  Timings : TimingDetails;
  Seed : string
}.

(** [type OpenAIDataItem struct]; its field [RevisedPrompt] is named
    [ItemRevisedPrompt] here, apart from the field of [Image]. *)
Record OpenAIDataItem : Type := mkOpenAIDataItem {
  B64JSON : string;
  ItemRevisedPrompt : string
}.

(** [type OpenAIResponse struct]. *)
Record OpenAIResponse : Type := mkOpenAIResponse {
  Created : Z;
  Data : list OpenAIDataItem
}.

Definition zero_Image : Image := mkImage "" "" None.
Definition zero_OriginResponse : OriginResponse :=
  mkOriginResponse nil_slice (mkTimingDetails "") "".

Definition is_digit (c : ascii) : bool :=
  (48 <=? nat_of_ascii c)%nat && (nat_of_ascii c <=? 57)%nat.

Fixpoint skip_digits (s : string) : string :=
  match s with
  | String c s' => if is_digit c then skip_digits s' else s
  | EmptyString => s
  end.

(** [isValidNumber]: the number grammar of JSON. *)
Definition isValidNumber (s : string) : bool :=
  let after_sign :=
    match s with
    | String "-" s' => s'
    | _ => s
    end in
  match after_sign with
  | EmptyString => false
  | String c s1 =>
      if is_digit c then
        let after_int :=
          if Ascii.eqb c "0" then s1 else skip_digits s1 in
        let after_frac :=
          match after_int with
          | String "." (String d s2) =>
              if is_digit d then skip_digits s2 else after_int
          | _ => after_int
          end in
        match after_frac with
        | String e (String d s3) =>
            if Ascii.eqb e "e" || Ascii.eqb e "E" then
              if Ascii.eqb d "+" || Ascii.eqb d "-" then
                match s3 with
                | EmptyString => false
                | _ => String.eqb (skip_digits s3) ""
                end
              else String.eqb (skip_digits (String d s3)) ""
            else false
        | String _ EmptyString => false
        | EmptyString => true
        end
      else false
  end.

(** [foldName]: the key used for the case-insensitive match of object keys
    with field names.  ASCII letters are upper-cased; the long s (U+017F)
    and the Kelvin sign (U+212A) fold to [S] and [K].  Other non-ASCII
    runes fold among themselves and are kept as they are, which does not
    change whether a key matches one of the ASCII names of these structs. *)
Fixpoint foldName (s : string) : string :=
  match s with
  | EmptyString => EmptyString
  | String "197" (String "191" s') => String "S" (foldName s')
  | String "226" (String "132" (String "170" s')) => String "K" (foldName s')
  | String c s' => String (Strings.to_upper c) (foldName s')
  end.

(** An object key selects the field of that name, exactly or folded. *)
Definition field_match (name key : string) : bool :=
  String.eqb key name || String.eqb (foldName key) (foldName name).

(** Decoding into a [string] field. *)
Definition unmarshal_string (cur : string) (j : json) : option string :=
  match j with
  | JString s => Some s
  | JNull => Some cur
  | _ => None
  end.

(** Decoding into a [json.Number] field: a number, or a string that holds
    a number. *)
Definition unmarshal_Number (cur : string) (j : json) : option string :=
  match j with
  | JNumber lit => Some lit
  | JString s => if isValidNumber s then Some s else None
  | JNull => Some cur
  | _ => None
  end.

(** One member of an object decoded into a struct: the fold over the
    members stops at the first error. *)
Definition members_into {S : Type} (field : S -> string * json -> option S)
    (cur : S) (members : list (string * json)) : option S :=
  foldl (fun acc m => acc ≫= fun s => field s m) (Some cur) members.

Definition unmarshal_Image_field (img : Image) (m : string * json)
    : option Image :=
  if field_match "url" m.1 then
    s ← unmarshal_string (URL img) m.2;
    Some (mkImage s (RevisedPrompt img) (ExtraFields img))
  else if field_match "revised_prompt" m.1 then
    s ← unmarshal_string (RevisedPrompt img) m.2;
    Some (mkImage (URL img) s (ExtraFields img))
  else Some img.

Definition unmarshal_Image (cur : Image) (j : json) : option Image :=
  match j with
  | JObject members => members_into unmarshal_Image_field cur members
  | JNull => Some cur
  | _ => None
  end.

Definition unmarshal_TimingDetails_field (t : TimingDetails)
    (m : string * json) : option TimingDetails :=
  if field_match "inference" m.1 then
    n ← unmarshal_Number (Inference t) m.2;
    Some (mkTimingDetails n)
  else Some t.

Definition unmarshal_TimingDetails (cur : TimingDetails) (j : json)
    : option TimingDetails :=
  match j with
  | JObject members => members_into unmarshal_TimingDetails_field cur members
  | JNull => Some cur
  | _ => None
  end.

(** The elements of an array are decoded into the slots of the backing
    array; a slot past the backing array is a zero value. *)
Fixpoint unmarshal_elems (slots : list Image) (xs : list json)
    : option (list Image) :=
  match xs with
  | [] => Some []
  | x :: xs' =>
      img ← unmarshal_Image (hd zero_Image slots) x;
      rest ← unmarshal_elems (tl slots) xs';
      Some (img :: rest)
  end.

(** Decoding into [[]Image]: [null] gives the nil slice, the empty array a
    fresh empty slice, an array reuses the backing array. *)
Definition unmarshal_Images (cur : slice Image) (j : json)
    : option (slice Image) :=
  match j with
  | JNull => Some nil_slice
  | JArray [] => Some (mkSlice [] [] false)
  | JArray xs =>
      els ← unmarshal_elems (backing cur) xs;
      Some (mkSlice els (drop (List.length xs) (backing cur)) false)
  | _ => None
  end.

Definition unmarshal_OriginResponse_field (o : OriginResponse)
    (m : string * json) : option OriginResponse :=
  if field_match "images" m.1 then
    imgs ← unmarshal_Images (Images o) m.2;
    Some (mkOriginResponse imgs (Timings o) (Seed o))
  else if field_match "timings" m.1 then
    t ← unmarshal_TimingDetails (Timings o) m.2;
    Some (mkOriginResponse (Images o) t (Seed o))
  else if field_match "seed" m.1 then
    n ← unmarshal_Number (Seed o) m.2;
    Some (mkOriginResponse (Images o) (Timings o) n)
  else Some o.

Definition unmarshal_OriginResponse (cur : OriginResponse) (j : json)
    : option OriginResponse :=
  match j with
  | JObject members =>
      members_into unmarshal_OriginResponse_field cur members
  | JNull => Some cur
  | _ => None
  end.

(** [json.NewDecoder(resp.Body).Decode(&originResp)] on a body that holds
    the JSON value [j]; [None] is a non-nil error. *)
Definition Decode_OriginResponse (j : json) : option OriginResponse :=
  unmarshal_OriginResponse zero_OriginResponse j.

(** Encoding of a [json.Number]: the empty string is written as [0]. *)
Definition marshal_Number (n : string) : option json :=
  if String.eqb n "" then Some (JNumber "0")
  else if isValidNumber n then Some (JNumber n) else None.

(** Encoding of an [Image]: [revised_prompt] has [omitempty]. *)
Definition marshal_Image (img : Image) : json :=
  JObject (("url", JString (URL img)) ::
           (if String.eqb (RevisedPrompt img) "" then []
            else [("revised_prompt", JString (RevisedPrompt img))])).

Definition marshal_Images (s : slice Image) : json :=
  if is_nil s then JNull else JArray (marshal_Image <$> elems s).

(** [json.Marshal] of an [OriginResponse]: the fields in declaration
    order; [None] is an error. *)
Definition marshal_OriginResponse (o : OriginResponse) : option json :=
  inference ← marshal_Number (Inference (Timings o));
  seed ← marshal_Number (Seed o);
  Some (JObject [("images", marshal_Images (Images o));
                 ("timings", JObject [("inference", inference)]);
                 ("seed", seed)]).

End Json.

(** ** [net/http] as the handler sees it *)

Module Http.
Import Json.

(** An [error] value: a cause reported by the transport, or the error
    built by [fmt.Errorf("HTTP %d", resp.StatusCode)]. *)
Inductive error : Type :=
  | TransportError (cause : string)
  | Errorf_HTTP (StatusCode : Z).

(** [io.ReadAll(resp.Body)]. *)
Inductive ReadAll : Type :=
  | ReadOK (data : list byte)
  | ReadErr (err : error).

(** [http.Get(url)]. *)
Inductive GetResult : Type :=
  | GetErr (err : error)
  | GetResp (StatusCode : Z) (Body : ReadAll).

(** [client.Do(proxyReq)]; the body of a response is a JSON text holding
    one value, or not JSON at all ([None]).  The handler never looks at
    the status of the upstream response. *)
Inductive DoResult : Type :=
  | DoErr (err : error)
  | DoResp (Body : option json).

(** The request body after [json.NewDecoder(r.Body).Decode(&reqBody)]:
    an error, as for every body that is not JSON (and for JSON that does
    not fit the map, such as an array), or the decoded map, which stays
    [nil] for [null].  The values of the map are those Go stores in an
    [interface{}]: nil, bool, float64 (kept by its literal), string,
    slice and map. *)
Inductive Decoded : Type :=
  | DecodeError
  | DecodeOK (reqBody : option (gmap string json)).

Record Request : Type := mkRequest {
  Header : gmap string (list string);
  Body : Decoded
}.

(** What the handler does with its [http.ResponseWriter]: either
    [http.Error(w, error, code)], which answers with the status [code] and
    the message as a line of plain text, or a JSON encoding of a value
    with the default status. *)
Inductive Response : Type :=
  | http_Error (error : string) (code : Z)
  | Encode_OriginResponse (v : OriginResponse)
  | Encode_OpenAIResponse (v : OpenAIResponse).

Definition StatusOK : Z := 200.
Definition StatusBadRequest : Z := 400.
Definition StatusInternalServerError : Z := 500.
Definition StatusBadGateway : Z := 502.

Definition StatusCode (r : Response) : Z :=
  match r with
  | http_Error _ code => code
  | _ => StatusOK
  end.

(** The network calls of a request: the call to the upstream service,
    then the downloads in the order in which they finish. *)
Inductive Effect : Type :=
  | Post (body : option (gmap string json)) (header : gmap string (list string))
  | Get (index : nat) (url : string).

Definition is_Get (e : Effect) : bool :=
  match e with
  | Get _ _ => true
  | Post _ _ => false
  end.

(** The world around one request: the upstream service, the image hosts
    (asked once per reference, so the answer may depend on the index as
    well as on the URL) and the clock. *)
Record Env : Type := mkEnv {
  Do : option (gmap string json) -> gmap string (list string) -> DoResult;
  httpGet : nat -> string -> GetResult;
  Now : Z
}.

End Http.

(** ** [main.go] *)

Import Json Http.

(** [safeLogHeaders]: every key is kept; the value of an authorization
    header is cut after ten bytes. *)
Definition safeLogHeaders (headers : gmap string (list string))
    : gmap string string :=
  map_imap (fun k v =>
    Some (if Strings.EqualFold k "Authorization"
             && (0 <? List.length v)%nat
          then
            let v0 := default EmptyString (v !! 0%nat) in
            (substring 0 (Nat.min 10 (String.length v0)) v0 +:+ "...")%string
          else Strings.Join v ", ")) headers.

(** [m[key]] on a map that may be [nil]. *)
Definition index (m : option (gmap string json)) (key : string)
    : option json :=
  m ≫= fun m => m !! key.

(** The field mapping: [size] is renamed to [image_size]. *)
Definition map_size (reqBody : option (gmap string json))
    : option (gmap string json) :=
  match index reqBody "size" with
  | Some size =>
      (fun m => delete "size" (<["image_size" := size]> m)) <$> reqBody
  | None => reqBody
  end.

(** [responseFormat, _ := reqBody["response_format"].(string)] *)
Definition responseFormat (reqBody : option (gmap string json)) : string :=
  match index reqBody "response_format" with
  | Some (JString s) => s
  | _ => EmptyString
  end.

(** What a download goroutine sends, on [resultChan] or on [errorChan]. *)
Inductive Sent : Type :=
  | SendResult (item : OpenAIDataItem)
  | SendError (err : error).

Module FanOut.

Section Coordinator.

Variable originResp : OriginResponse.
Variable get : nat -> string -> GetResult.

(** [originResp.Images[index].RevisedPrompt]; the index always comes from
    ranging over [originResp.Images]. *)
Definition prompt_at (index : nat) : string :=
  RevisedPrompt (default zero_Image (elems (Images originResp) !! index)).

(** The closure [downloadImage]. *)
Definition downloadImage (url : string) (index : nat) : Sent :=
  match get index url with
  | GetErr err => SendError err
  | GetResp code body =>
      if negb (code =? StatusOK) then SendError (Errorf_HTTP code)
      else
        match body with
        | ReadErr err => SendError err
        | ReadOK data =>
            SendResult (mkOpenAIDataItem (Base64.EncodeToString data)
                                         (prompt_at index))
        end
  end.

(** The handler goroutine and the download goroutines it started.
    [running] holds the indices of the goroutines that have not sent yet,
    the two lists are the buffers of the channels, [results] is the slice
    built by the collecting loop and [pending] the number of its
    iterations still to run; [gets] records the downloads made. *)
Record State : Type := mkState {
  running : gset nat;
  resultChan : list OpenAIDataItem;
  errorChan : list error;
  results : list OpenAIDataItem;
  pending : nat;
  gets : list Effect
}.

(** Both channels are made with capacity [len(originResp.Images)]. *)
Definition capacity : nat := List.length (elems (Images originResp)).

(** After [for i, img := range originResp.Images { go downloadImage(img.URL, i) }]. *)
Definition spawned : State :=
  mkState (set_seq 0 capacity) [] [] [] capacity [].

(** One scheduling choice: goroutine [i] finishes its download and sends,
    or the [select] of the collecting loop takes one of its two cases. *)
Inductive Action : Type :=
  | Finish (i : nat)
  | RecvResult
  | RecvError.

(** A step is possible when the goroutine is still running and its channel
    has room, or when the loop still runs and the channel of the chosen
    case holds a value. *)
Definition step (s : State) (a : Action) : option State :=
  match a with
  | Finish i =>
      if bool_decide (i ∈ running s) then
        match elems (Images originResp) !! i with
        | Some img =>
            let s' := mkState (running s ∖ {[i]}) (resultChan s) (errorChan s)
                        (results s) (pending s)
                        (gets s ++ [Get i (URL img)]) in
            match downloadImage (URL img) i with
            | SendResult item =>
                if bool_decide (List.length (resultChan s) < capacity)%nat then
                  Some (mkState (running s') (resultChan s ++ [item])
                          (errorChan s') (results s') (pending s') (gets s'))
                else None
            | SendError err =>
                if bool_decide (List.length (errorChan s) < capacity)%nat then
                  Some (mkState (running s') (resultChan s')
                          (errorChan s ++ [err]) (results s') (pending s')
                          (gets s'))
                else None
            end
        | None => None
        end
      else None
  | RecvResult =>
      match pending s, resultChan s with
      | S n, res :: queue =>
          Some (mkState (running s) queue (errorChan s)
                  (results s ++ [res]) n (gets s))
      | _, _ => None
      end
  | RecvError =>
      match pending s, errorChan s with
      | S n, err :: queue =>
          Some (mkState (running s) (resultChan s) queue
                  (results s ++ [mkOpenAIDataItem "" ""]) n (gets s))
      | _, _ => None
      end
  end.

(** A schedule run from a state; [None] when one of its steps is not
    possible. *)
Fixpoint run (sched : list Action) (s : State) : option State :=
  match sched with
  | [] => Some s
  | a :: sched' => step s a ≫= run sched'
  end.

(** The collecting loop has made all its iterations. *)
Definition collected (s : State) : bool := bool_decide (pending s = 0%nat).

(** The item the collecting loop appends for what goroutine [i] sends. *)
Definition item_of (i : nat) : OpenAIDataItem :=
  match downloadImage
          (URL (default zero_Image (elems (Images originResp) !! i))) i with
  | SendResult item => item
  | SendError _ => mkOpenAIDataItem "" ""
  end.

(** The schedule in which every download is received before the next one
    finishes, in the order of the references. *)
Definition in_turn (i : nat) : list Action :=
  match downloadImage
          (URL (default zero_Image (elems (Images originResp) !! i))) i with
  | SendResult _ => [Finish i; RecvResult]
  | SendError _ => [Finish i; RecvError]
  end.

Definition sequential : list Action :=
  concat (in_turn <$> seq 0 capacity).

(** The item appended for a failed download. *)
Definition blank : OpenAIDataItem := mkOpenAIDataItem "" "".

(** The download made for reference [i]. *)
Definition get_of (i : nat) : Effect :=
  Get i (URL (default zero_Image (elems (Images originResp) !! i))).

(** What holds of every state the fan-out reaches: each goroutine still
    running owes one value, every value sent is in a channel or has been
    collected, and the loop has as many iterations left as values are
    owed or waiting. *)
Record Inv (s : State) : Prop := mkInv {
  inv_pending :
    pending s = (size (running s) + List.length (resultChan s)
                 + List.length (errorChan s))%nat;
  inv_results : (List.length (results s) + pending s)%nat = capacity;
  inv_running : forall i, i ∈ running s -> (i < capacity)%nat;
  inv_items :
    results s ++ resultChan s ++ ((fun _ => blank) <$> errorChan s)
      ++ (item_of <$> elements (running s))
    ≡ₚ item_of <$> seq 0 capacity;
  inv_gets :
    gets s ++ (get_of <$> elements (running s)) ≡ₚ get_of <$> seq 0 capacity
}.

(** Steps left at most: two for a goroutine still running (it sends, the
    loop receives), one for a value waiting in a channel. *)
Definition steps_left (s : State) : nat :=
  (2 * size (running s) + List.length (resultChan s)
   + List.length (errorChan s))%nat.

(** The state reached when the first [k] downloads have been received in
    turn. *)
Definition served (k : nat) : State :=
  mkState (set_seq k (capacity - k)) [] [] (item_of <$> seq 0 k)
          (capacity - k) (get_of <$> seq 0 k).

End Coordinator.

End FanOut.

Import FanOut.

Definition msgInvalidJSON : string :=
  ("{" +:+ Strings.dquote +:+ "error" +:+ Strings.dquote +:+ ": "
   +:+ Strings.dquote +:+ "Invalid JSON" +:+ Strings.dquote +:+ "}")%string.

Definition msgUnavailable : string :=
  ("{" +:+ Strings.dquote +:+ "error" +:+ Strings.dquote +:+ ":"
   +:+ Strings.dquote +:+ "Upstream service unavailable" +:+ Strings.dquote
   +:+ "}")%string.

Definition msgInvalidUpstream : string :=
  ("{" +:+ Strings.dquote +:+ "error" +:+ Strings.dquote +:+ ":"
   +:+ Strings.dquote +:+ "Invalid upstream response" +:+ Strings.dquote
   +:+ "}")%string.

(** [handleGenerations]: the network calls made and the answer written.
    The schedule [sched] resolves the order in which the downloads finish
    and the choices of [select]; the result is [None] when [sched] is not
    a complete run of the fan-out.  Logging is left out. *)
Definition handleGenerations (env : Env) (sched : list Action) (r : Request)
    : option (list Effect * Response) :=
  match Body r with
  | DecodeError => Some ([], http_Error msgInvalidJSON StatusBadRequest)
  | DecodeOK reqBody =>
      let reqBody := map_size reqBody in
      let post := Post reqBody (Header r) in
      match Do env reqBody (Header r) with
      | DoErr _ => Some ([post], http_Error msgUnavailable StatusBadGateway)
      | DoResp body =>
          match body ≫= Decode_OriginResponse with
          | None =>
              Some ([post],
                    http_Error msgInvalidUpstream StatusInternalServerError)
          | Some originResp =>
              if negb (String.eqb (responseFormat reqBody) "b64_json") then
                Some ([post], Encode_OriginResponse originResp)
              else
                match run originResp (httpGet env) sched
                          (spawned originResp) with
                | Some s =>
                    if collected s then
                      Some (post :: gets s,
                            Encode_OpenAIResponse
                              (mkOpenAIResponse (Now env) (results s)))
                    else None
                | None => None
                end
          end
      end
  end.

(** ** The request body as the decoder reads it *)

(** The white space of JSON. *)
Definition is_space (c : ascii) : bool :=
  Ascii.eqb c " " || Ascii.eqb c "009" || Ascii.eqb c "010"
  || Ascii.eqb c "013".

Fixpoint all_space (s : string) : bool :=
  match s with
  | EmptyString => true
  | String c s' => is_space c && all_space s'
  end.

(** What [json.NewDecoder(r.Body)] finds at the start of the body:
    nothing it can read as a JSON value (the body is empty, or has a
    syntax error before its first value is complete), or a first JSON
    value and the bytes that follow it.  [Decode] reads that first value
    only and does not look at what follows an object. *)
Inductive RawBody : Type :=
  | NotJSON
  | Value (first : json) (trailing : string).

(** The body as a whole is a JSON text: one value, then white space
    only. *)
Definition JSON_text (body : RawBody) : bool :=
  match body with
  | NotJSON => false
  | Value _ trailing => all_space trailing
  end.

Section Decode_reqBody.

(** Whether [strconv.ParseFloat(lit, 64)] accepts a number literal: a
    number is stored in an [interface{}] as a float64, and a literal out
    of its range is an error of [Decode]. *)
Variable ParseFloat_ok : string -> bool.

Fixpoint numbers_ok (j : json) : bool :=
  match j with
  | JNumber lit => ParseFloat_ok lit
  | JArray xs => forallb numbers_ok xs
  | JObject members => forallb (fun m => numbers_ok (snd m)) members
  | _ => true
  end.

(** [json.NewDecoder(r.Body).Decode(&reqBody)] with
    [reqBody map[string]interface{}]: an object fills the map, a later
    member replacing an earlier one of the same key; [null] leaves the
    map [nil]; any other value is an error. *)
Definition Decode_reqBody (body : RawBody) : Decoded :=
  match body with
  | NotJSON => DecodeError
  | Value first _ =>
      if numbers_ok first then
        match first with
        | JObject members =>
            DecodeOK (Some (foldl (fun m kv => <[kv.1 := kv.2]> m) ∅ members))
        | JNull => DecodeOK None
        | _ => DecodeError
        end
      else DecodeError
  end.

(** [handleGenerations] from the body as it arrives. *)
Definition handleGenerations_raw (env : Env) (sched : list Action)
    (header : gmap string (list string)) (body : RawBody)
    : option (list Effect * Response) :=
  handleGenerations env sched (mkRequest header (Decode_reqBody body)).

End Decode_reqBody.

(** The line feed. *)
Definition LF : string := String "010"%char EmptyString.

(** The body written by [http.Error(w, error, code)]: the message
    printed as a line, that is followed by a line feed (as plain text).
    The text of a JSON encoding is not modelled. *)
Definition Written (r : Response) : option string :=
  match r with
  | http_Error error _ => Some (error +:+ LF)%string
  | _ => None
  end.

(** A body that is an object followed by words. *)
Definition object_then_words : RawBody :=
  Value (JObject [("prompt", JString "a cat")]) " not json".

(** ** Notions used to state the properties *)

(** The object keys that select a field of each struct. *)
Definition known_Image (key : string) : bool :=
  field_match "url" key || field_match "revised_prompt" key.

Definition known_TimingDetails (key : string) : bool :=
  field_match "inference" key.

Definition known_OriginResponse (key : string) : bool :=
  field_match "images" key || field_match "timings" key
  || field_match "seed" key.

(** An object without the members whose key selects no field. *)
Definition known_members (known : string -> bool) (j : json) : json :=
  match j with
  | JObject members => JObject (List.filter (fun m => known m.1) members)
  | _ => j
  end.

Definition known_Images (j : json) : json :=
  match j with
  | JArray xs => JArray (known_members known_Image <$> xs)
  | _ => j
  end.

(** An upstream body without any member unknown to [OriginResponse],
    [TimingDetails] or [Image]. *)
Definition known_only (j : json) : json :=
  match j with
  | JObject members =>
      JObject ((fun m =>
                  if field_match "images" m.1 then (m.1, known_Images m.2)
                  else if field_match "timings" m.1
                  then (m.1, known_members known_TimingDetails m.2)
                  else m)
               <$> List.filter (fun m => known_OriginResponse m.1) members)
  | _ => j
  end.

(** Inputs on which the properties are tried. *)
Module Examples.

Definition bearer : gmap string (list string) :=
  {[ "authorization" := ["Bearer sk-0123456789abcdef"];
     "Accept" := ["image/png"; "image/jpeg"] ]}.

(** A credential that itself ends in three dots. *)
Definition dotted : gmap string (list string) :=
  {[ "Authorization" := ["0123456789..."] ]}.

(** Two references; the second image is served, the first one is not. *)
Definition two_images : OriginResponse :=
  mkOriginResponse
    (mkSlice [mkImage "https://img/0" "first" None;
              mkImage "https://img/1" "second" None] [] false)
    (mkTimingDetails "1.5") "42".

Definition all_served (index : nat) (url : string) : GetResult :=
  GetResp 200 (ReadOK ["001"; "002"; "003"]%byte).

Definition second_served (index : nat) (url : string) : GetResult :=
  if String.eqb url "https://img/1"
  then GetResp 200 (ReadOK ["001"; "002"; "003"]%byte)
  else GetResp 404 (ReadOK []).

Definition no_content (index : nat) (url : string) : GetResult :=
  GetResp 204 (ReadOK []).

(** An upstream body with a field the structs do not declare. *)
Definition drifted : json :=
  JObject [("images", JArray [JObject [("url", JString "https://img/0");
                                       ("revised_prompt", JString "first")]]);
           ("timings", JObject [("inference", JNumber "1.5")]);
           ("seed", JNumber "42");
           ("nsfw_flags", JArray [JBool false])].

Definition upstream_drifted : Env :=
  mkEnv (fun _ _ => DoResp (Some drifted)) second_served 1719501163.

Definition plain_request : Request :=
  mkRequest bearer (DecodeOK (Some {[ "prompt" := JString "a cat" ]})).

Definition b64_request : Request :=
  mkRequest bearer
    (DecodeOK (Some {[ "prompt" := JString "a cat";
                       "response_format" := JString "b64_json" ]})).


Definition bad_request : Request := mkRequest bearer DecodeError.

End Examples.

(** An image whose [ExtraFields] is [nil]. *)
Definition no_extra (img : Image) : Prop := ExtraFields img = None.

(** Further inputs: upstream answers of several kinds. *)
Module Inputs.

(** The upstream service cannot be reached. *)
Definition upstream_down : Env :=
  mkEnv (fun _ _ => DoErr (TransportError "connection refused"))
        Examples.all_served 1719501163.

(** The upstream service answers with a page that is not JSON. *)
Definition upstream_not_json : Env :=
  mkEnv (fun _ _ => DoResp None) Examples.all_served 1719501163.

(** The upstream service answers with an error object. *)
Definition error_object : json :=
  JObject [("code", JNumber "20012"); ("message", JString "Model disabled")].

Definition upstream_error_object : Env :=
  mkEnv (fun _ _ => DoResp (Some error_object)) Examples.all_served
        1719501163.

(** The upstream service answers with [images] as a string. *)
Definition upstream_images_string : Env :=
  mkEnv (fun _ _ =>
           DoResp (Some (JObject [("seed", JNumber "1");
                                  ("images", JString "https://img/0")])))
        Examples.all_served 1719501163.

(** The upstream service answers with the two references of
    [Examples.two_images]. *)
Definition upstream_two : Env :=
  mkEnv (fun _ _ =>
           DoResp (Some (JObject
             [("images",
               JArray [JObject [("url", JString "https://img/0");
                                ("revised_prompt", JString "first")];
                       JObject [("url", JString "https://img/1");
                                ("revised_prompt", JString "second")]]);
              ("timings", JObject [("inference", JNumber "1.5")]);
              ("seed", JNumber "42")])))
        Examples.second_served 1719501163.

(** A request that asks for a size, and one that also sends an
    [image_size] of its own. *)
Definition sized : gmap string json :=
  {[ "prompt" := JString "a cat"; "size" := JString "1024x1024" ]}.

Definition sized_twice : gmap string json :=
  {[ "prompt" := JString "a cat"; "size" := JString "1024x1024";
     "image_size" := JString "512x512" ]}.

(** Nothing can be downloaded. *)
Definition none_served (index : nat) (url : string) : GetResult :=
  GetErr (TransportError "no route to host").

End Inputs.

Example b64_123 : Base64.EncodeToString ["001"; "002"; "003"]%byte = "AQID"%string.
Proof. reflexivity. Qed.

Example b64_dec : Base64.DecodeString "AQI=" = Some ["001"; "002"]%byte.
Proof. reflexivity. Qed.

(** Two references, the first answered with 404 and the second with the
    bytes 1, 2, 3, received in turn: two items, the first one blank, the
    second one decoding to the bytes. *)
Example one_of_two_fails :
  results <$> run Examples.two_images Examples.second_served
                  (sequential Examples.two_images Examples.second_served)
                  (spawned Examples.two_images)
  = Some [mkOpenAIDataItem "" ""; mkOpenAIDataItem "AQID" "second"]
  /\ Base64.DecodeString "AQID" = Some ["001"; "002"; "003"]%byte.
Proof. split; reflexivity. Qed.

(** * Properties *)

(** ** Base64: the encoding is reversible *)

Section Base64_facts.
Import Base64.

Ltac euclid := Z.to_euclidean_division_equations; lia.

Lemma uint_range b : 0 <= uint b < 256.
Proof.
  unfold uint. pose proof (Byte.to_N_bounded b). lia.
Qed.

Lemma to_byte_uint b : to_byte (uint b) = b.
Proof. destruct b; reflexivity. Qed.

Lemma to_byte_mod v : to_byte v = to_byte (v mod 256).
Proof.
  unfold to_byte. change 255 with (Z.ones 8).
  rewrite !Z.land_ones by lia. change (2 ^ 8) with 256.
  now rewrite Z.mod_mod by lia.
Qed.

(** Bitwise or of two numbers with disjoint bits is their sum. *)
Lemma lor_add x b k :
  0 <= k -> x mod 2 ^ k = 0 -> 0 <= b < 2 ^ k -> Z.lor x b = x + b.
Proof.
  intros Hk Hx Hb.
  rewrite <- (Z.add_lor_land x b).
  replace (Z.land x b) with 0; [lia|].
  symmetry. apply Z.bits_inj'. intros n Hn.
  rewrite Z.land_spec, Z.bits_0.
  destruct (Z.lt_ge_cases n k) as [Hlt|Hge].
  - rewrite <- (Z.mod_pow2_bits_low x k n) by lia.
    now rewrite Hx, Z.bits_0.
  - rewrite <- (Z.mod_small b (2 ^ k)) by lia.
    rewrite Z.mod_pow2_bits_high by lia.
    apply andb_false_r.
Qed.

(** The 24 bit group built from three bytes. *)
Lemma group3_val x0 x1 x2 :
  0 <= x0 < 256 -> 0 <= x1 < 256 -> 0 <= x2 < 256 ->
  Z.lor (Z.lor (Z.shiftl x0 16) (Z.shiftl x1 8)) x2
  = x0 * 65536 + x1 * 256 + x2.
Proof.
  intros H0 H1 H2. rewrite !Z.shiftl_mul_pow2 by lia.
  change (2 ^ 16) with 65536. change (2 ^ 8) with 256.
  rewrite (lor_add (x0 * 65536) (x1 * 256) 16);
    [|lia|change (2 ^ 16) with 65536; euclid|change (2 ^ 16) with 65536; lia].
  rewrite (lor_add _ x2 8);
    [|lia|change (2 ^ 8) with 256; euclid|change (2 ^ 8) with 256; lia].
  reflexivity.
Qed.

(** The 24 bit group rebuilt from four sextets. *)
Lemma group4_val s0 s1 s2 s3 :
  0 <= s0 < 64 -> 0 <= s1 < 64 -> 0 <= s2 < 64 -> 0 <= s3 < 64 ->
  Z.lor (Z.lor (Z.lor (Z.shiftl s0 18) (Z.shiftl s1 12)) (Z.shiftl s2 6)) s3
  = s0 * 262144 + s1 * 4096 + s2 * 64 + s3.
Proof.
  intros H0 H1 H2 H3. rewrite !Z.shiftl_mul_pow2 by lia.
  change (2 ^ 18) with 262144. change (2 ^ 12) with 4096.
  change (2 ^ 6) with 64.
  rewrite (lor_add (s0 * 262144) (s1 * 4096) 18);
    [|lia|change (2 ^ 18) with 262144; euclid
      |change (2 ^ 18) with 262144; lia].
  rewrite (lor_add _ (s2 * 64) 12);
    [|lia|change (2 ^ 12) with 4096; euclid|change (2 ^ 12) with 4096; lia].
  rewrite (lor_add _ s3 6);
    [|lia|change (2 ^ 6) with 64; euclid|change (2 ^ 6) with 64; lia].
  reflexivity.
Qed.

Lemma sextet v k : 0 <= k -> Z.land (Z.shiftr v k) 63 = (v / 2 ^ k) mod 64.
Proof.
  intros Hk. change 63 with (Z.ones 6).
  rewrite Z.land_ones by lia. now rewrite Z.shiftr_div_pow2 by lia.
Qed.

Lemma sextet0 v : Z.land v 63 = v mod 64.
Proof. change 63 with (Z.ones 6). now rewrite Z.land_ones by lia. Qed.

(** Every table entry decodes to its own index and is not the padding. *)
Lemma table_check :
  forallb (fun n => (decodeMap (encode (Z.of_nat n)) =? Z.of_nat n)
                    && negb (Ascii.eqb (encode (Z.of_nat n)) padChar))
          (seq 0 64) = true.
Proof. vm_compute. reflexivity. Qed.

Lemma decodeMap_encode i : 0 <= i < 64 -> decodeMap (encode i) = i.
Proof.
  intros Hi. pose proof table_check as H.
  rewrite forallb_forall in H.
  specialize (H (Z.to_nat i)).
  rewrite Z2Nat.id in H by lia.
  apply andb_prop in H as [H _]; [lia|].
  apply in_seq. lia.
Qed.

Lemma valid_encode i : 0 <= i < 64 -> valid (encode i) = true.
Proof.
  intros Hi. unfold valid. rewrite decodeMap_encode by lia.
  apply negb_true_iff, Z.eqb_neq. lia.
Qed.

Lemma valid_padChar : valid padChar = false.
Proof. reflexivity. Qed.

Lemma DecodeString_group s0 s1 s2 s3 r :
  0 <= s0 < 64 -> 0 <= s1 < 64 -> 0 <= s2 < 64 -> 0 <= s3 < 64 ->
  DecodeString
    (String (encode s0) (String (encode s1)
       (String (encode s2) (String (encode s3) r))))
  = match DecodeString r with
    | Some out =>
        let val := s0 * 262144 + s1 * 4096 + s2 * 64 + s3 in
        Some (to_byte (Z.shiftr val 16) :: to_byte (Z.shiftr val 8)
                :: to_byte val :: out)
    | None => None
    end.
Proof.
  intros H0 H1 H2 H3. cbn [DecodeString].
  rewrite !valid_encode, !decodeMap_encode by lia. cbn [andb].
  now rewrite group4_val by lia.
Qed.

Lemma DecodeString_pad1 s0 s1 s2 :
  0 <= s0 < 64 -> 0 <= s1 < 64 -> 0 <= s2 < 64 ->
  DecodeString
    (String (encode s0) (String (encode s1)
       (String (encode s2) (String padChar EmptyString))))
  = let val := s0 * 262144 + s1 * 4096 + s2 * 64 in
    Some [to_byte (Z.shiftr val 16); to_byte (Z.shiftr val 8)].
Proof.
  intros H0 H1 H2. cbn [DecodeString].
  rewrite !valid_encode, !decodeMap_encode by lia.
  rewrite valid_padChar. cbn [andb]. rewrite Ascii.eqb_refl.
  rewrite <- (Z.lor_0_r (Z.lor (Z.lor _ _) _)).
  rewrite group4_val by lia. now rewrite Z.add_0_r.
Qed.

Lemma DecodeString_pad2 s0 s1 :
  0 <= s0 < 64 -> 0 <= s1 < 64 ->
  DecodeString
    (String (encode s0) (String (encode s1)
       (String padChar (String padChar EmptyString))))
  = Some [to_byte (Z.shiftr (s0 * 262144 + s1 * 4096) 16)].
Proof.
  intros H0 H1. cbn [DecodeString].
  rewrite !valid_encode, !decodeMap_encode by lia.
  rewrite valid_padChar. cbn [andb]. rewrite Ascii.eqb_refl. cbn [andb].
  rewrite <- (Z.lor_0_r (Z.lor _ _)).
  change 0 with (Z.shiftl 0 6) at 1.
  rewrite <- (Z.lor_0_r (Z.lor (Z.lor _ _) _)).
  rewrite group4_val by lia. now rewrite !Z.add_0_r.
Qed.

(** Shifting the group right and truncating gives back each byte. *)
Lemma to_byte_shiftr v k b :
  0 <= k -> (v / 2 ^ k) mod 256 = uint b -> to_byte (Z.shiftr v k) = b.
Proof.
  intros Hk H. rewrite Z.shiftr_div_pow2 by lia.
  rewrite to_byte_mod, H. apply to_byte_uint.
Qed.

Lemma DecodeString_EncodeToString_le n :
  forall src : list byte, (List.length src <= n)%nat ->
              DecodeString (EncodeToString src) = Some src.
Proof.
  induction n as [n IH] using lt_wf_ind. intros src Hlen.
  destruct src as [|b0 [|b1 [|b2 rest]]].
  - reflexivity.
  - cbn [EncodeToString].
    pose proof (uint_range b0) as R0.
    rewrite !Z.shiftl_mul_pow2, !sextet by lia.
    rewrite DecodeString_pad2 by euclid.
    f_equal. f_equal.
    apply to_byte_shiftr; [lia|].
    change (2 ^ 16) with 65536. change (2 ^ 18) with 262144.
    change (2 ^ 12) with 4096. euclid.
  - cbn [EncodeToString].
    pose proof (uint_range b0) as R0. pose proof (uint_range b1) as R1.
    rewrite <- (Z.lor_0_r (Z.lor _ _)).
    rewrite group3_val by lia. rewrite Z.add_0_r.
    rewrite !sextet by lia.
    rewrite DecodeString_pad1 by euclid. cbv zeta.
    change (2 ^ 18) with 262144. change (2 ^ 12) with 4096.
    change (2 ^ 6) with 64.
    f_equal. f_equal; [|f_equal].
    + apply to_byte_shiftr; [lia|]. change (2 ^ 16) with 65536. euclid.
    + apply to_byte_shiftr; [lia|]. change (2 ^ 8) with 256. euclid.
  - cbn [EncodeToString].
    pose proof (uint_range b0) as R0. pose proof (uint_range b1) as R1.
    pose proof (uint_range b2) as R2.
    rewrite group3_val by lia.
    rewrite !sextet by lia. rewrite sextet0.
    rewrite DecodeString_group by euclid.
    rewrite (IH (List.length rest)) by (cbn [List.length] in Hlen; lia). cbv zeta.
    change (2 ^ 18) with 262144. change (2 ^ 12) with 4096.
    change (2 ^ 6) with 64.
    f_equal. f_equal; [|f_equal; [|f_equal]].
    + apply to_byte_shiftr; [lia|]. change (2 ^ 16) with 65536. euclid.
    + apply to_byte_shiftr; [lia|]. change (2 ^ 8) with 256. euclid.
    + rewrite <- (Z.shiftr_0_r (_ + _ + _ + _)).
      apply to_byte_shiftr; [lia|]. change (2 ^ 0) with 1. euclid.
Qed.

Lemma sextet_range v : 0 <= Z.land v 63 < 64.
Proof. rewrite sextet0. apply Z.mod_pos_bound. lia. Qed.

(** Only characters of the alphabet and the padding are written. *)
Lemma EncodeToString_chars_le n :
  forall src : list byte, (List.length src <= n)%nat ->
    Forall (fun c => valid c = true \/ c = padChar)
           (list_ascii_of_string (EncodeToString src)).
Proof.
  induction n as [n IH] using lt_wf_ind. intros src Hlen.
  destruct src as [|b0 [|b1 [|b2 rest]]]; cbn [EncodeToString];
    cbn [list_ascii_of_string];
    repeat (apply Forall_cons; split;
            [first [ left; apply valid_encode, sextet_range
                   | right; reflexivity ] |]).
  - constructor.
  - constructor.
  - constructor.
  - apply (IH (List.length rest)); cbn [List.length] in Hlen; lia.
Qed.

End Base64_facts.

(** C4. The base64 transform applied to the downloaded bytes is exactly
    reversible: decoding the string written by [EncodeToString] gives back
    the bytes, whatever they are; the string holds only characters of the
    standard alphabet and the padding character, so no line break. *)
Theorem EncodeToString_reversible (data : list byte) :
  Base64.DecodeString (Base64.EncodeToString data) = Some data
  /\ Forall (fun c => Base64.valid c = true \/ c = Base64.padChar)
            (list_ascii_of_string (Base64.EncodeToString data)).
Proof.
  split.
  - apply (DecodeString_EncodeToString_le (List.length data)). lia.
  - apply (EncodeToString_chars_le (List.length data)). lia.
Qed.

(** ** [downloadImage] *)

Section downloadImage_facts.

Variable originResp : OriginResponse.
Variable get : nat -> string -> GetResult.

Lemma downloadImage_unfold url index :
  downloadImage originResp get url index =
  match get index url with
  | GetErr err => SendError err
  | GetResp code body =>
      if negb (code =? StatusOK) then SendError (Errorf_HTTP code)
      else
        match body with
        | ReadErr err => SendError err
        | ReadOK data =>
            SendResult (mkOpenAIDataItem (Base64.EncodeToString data)
                                         (prompt_at originResp index))
        end
  end.
Proof. reflexivity. Qed.

Lemma downloadImage_OK url index data :
  get index url = GetResp 200 (ReadOK data) ->
  downloadImage originResp get url index =
  SendResult (mkOpenAIDataItem (Base64.EncodeToString data)
                               (prompt_at originResp index)).
Proof. intros H. rewrite downloadImage_unfold, H. reflexivity. Qed.

Lemma downloadImage_status url index code body :
  get index url = GetResp code body -> code <> 200 ->
  downloadImage originResp get url index = SendError (Errorf_HTTP code).
Proof.
  intros H Hc. rewrite downloadImage_unfold, H.
  destruct (code =? StatusOK) eqn:E; [|reflexivity].
  apply Z.eqb_eq in E. unfold StatusOK in E. lia.
Qed.

Lemma downloadImage_result url index item :
  downloadImage originResp get url index = SendResult item ->
  exists data, get index url = GetResp 200 (ReadOK data).
Proof.
  rewrite downloadImage_unfold.
  destruct (get index url) as [e|code [data|e]]; try discriminate;
    destruct (code =? StatusOK) eqn:E; try discriminate.
  apply Z.eqb_eq in E. unfold StatusOK in E. subst code.
  intros _. now exists data.
Qed.

End downloadImage_facts.

(** C5, as amended. A download fails exactly when [http.Get] reports an
    error, when the status is not 200 (the failure carries the status), or
    when reading the body fails (the failure carries the cause); a
    response with status 200 and a readable body succeeds and carries the
    bytes, encoded. *)
Theorem downloadImage_outcome (originResp : OriginResponse)
    (get : nat -> string -> GetResult) (url : string) (index : nat) :
  (forall err,
      downloadImage originResp get url index = SendError err <->
      get index url = GetErr err
      \/ (exists code body, get index url = GetResp code body
                            /\ code <> 200 /\ err = Errorf_HTTP code)
      \/ get index url = GetResp 200 (ReadErr err))
  /\ (forall item,
      downloadImage originResp get url index = SendResult item <->
      exists data, get index url = GetResp 200 (ReadOK data)
                   /\ item = mkOpenAIDataItem (Base64.EncodeToString data)
                                              (prompt_at originResp index)).
Proof.
  rewrite downloadImage_unfold.
  destruct (get index url) as [e|code body].
  - split; intros x; split.
    + intros [= ->]. now left.
    + intros [[= ->]|[(c & b & [=] & _)|[=]]]. reflexivity.
    + intros [=].
    + intros (d & [=] & _).
  - destruct (code =? StatusOK) eqn:E; cbn [negb].
    + apply Z.eqb_eq in E. unfold StatusOK in E. subst code.
      destruct body as [data|e]; split; intros x; split.
      * intros [=].
      * intros [[=]|[(c & b & [= <- <-] & Hc & _)|[=]]]. lia.
      * intros [= <-]. now exists data.
      * intros (d & [= <-] & ->). reflexivity.
      * intros [= ->]. right. now right.
      * intros [[=]|[(c & b & [= <- <-] & Hc & _)|[= ->]]]; [lia|done].
      * intros [=].
      * intros (d & [=] & _).
    + apply Z.eqb_neq in E. unfold StatusOK in E.
      split; intros x; split.
      * intros [= <-]. right. left. now exists code, body.
      * intros [[=]|[(c & b & [= <- <-] & _ & ->)|[= -> _]]]; [done|lia].
      * intros [=].
      * intros (d & [= -> _] & _). lia.
Qed.

(** C5, as stated, fails: a response with status 204, which is a 2xx
    status, and a readable body is a failure. *)
Lemma downloadImage_2xx_not_success :
  ~ (forall originResp get url index code data,
        200 <= code < 300 ->
        get index url = GetResp code (ReadOK data) ->
        exists item,
          downloadImage originResp get url index = SendResult item).
Proof.
  intros H.
  destruct (H zero_OriginResponse Examples.no_content "https://img/0"%string
              0%nat 204 []) as [item Hitem]; [lia|reflexivity|].
  discriminate Hitem.
Qed.

(** ** [safeLogHeaders] *)

Section safeLogHeaders_facts.

Lemma substring_min n (s : string) :
  substring 0 (Nat.min n (String.length s)) s = substring 0 n s.
Proof.
  revert n. induction s as [|c s IH]; intros [|n]; cbn; try reflexivity.
  now rewrite IH.
Qed.

Lemma substring_length n (s : string) :
  String.length (substring 0 n s) = Nat.min n (String.length s).
Proof.
  revert n. induction s as [|c s IH]; intros [|n]; cbn; try reflexivity.
  now rewrite IH.
Qed.

Lemma substring_prefix n (s : string) :
  String.prefix (substring 0 n s) s = true.
Proof.
  revert n. induction s as [|c s IH]; intros [|n]; cbn; try reflexivity.
  destruct (ascii_dec c c); [apply IH|congruence].
Qed.

Lemma safeLogHeaders_lookup (headers : gmap string (list string)) k :
  safeLogHeaders headers !! k =
  (fun v =>
     if Strings.EqualFold k "Authorization" && (0 <? List.length v)%nat
     then
       let v0 := default EmptyString (v !! 0%nat) in
       (substring 0 (Nat.min 10 (String.length v0)) v0 +:+ "...")%string
     else Strings.Join v ", ") <$> headers !! k.
Proof.
  unfold safeLogHeaders. rewrite map_lookup_imap.
  destruct (headers !! k); reflexivity.
Qed.

End safeLogHeaders_facts.

(** C9, as amended. For a key that equals ["Authorization"] up to case and
    has a value, the map returned by [safeLogHeaders] holds the first ten
    bytes of the first value (all of it when it is shorter) followed by
    ["..."]: what is shown of a credential longer than ten bytes is a
    proper prefix of it, and nothing past the tenth byte, nor any further
    value of the header, has an influence on the result.  Every other
    key, and an authorization key without a value, is kept with its
    values joined by [", "], and no key is added. *)
Theorem safeLogHeaders_redacts (headers : gmap string (list string)) :
  (forall k v0 rest,
      Strings.EqualFold k "Authorization" = true ->
      headers !! k = Some (v0 :: rest) ->
      safeLogHeaders headers !! k = Some (substring 0 10 v0 +:+ "...")%string
      /\ (String.length (substring 0 10 v0) <= 10)%nat
      /\ String.prefix (substring 0 10 v0) v0 = true
      /\ ((10 < String.length v0)%nat -> substring 0 10 v0 <> v0))
  /\ (forall k v0 rest (headers' : gmap string (list string)) v0' rest',
      Strings.EqualFold k "Authorization" = true ->
      headers !! k = Some (v0 :: rest) ->
      headers' !! k = Some (v0' :: rest') ->
      substring 0 10 v0 = substring 0 10 v0' ->
      safeLogHeaders headers !! k = safeLogHeaders headers' !! k)
  /\ (forall k v,
      Strings.EqualFold k "Authorization" = false \/ v = [] ->
      headers !! k = Some v ->
      safeLogHeaders headers !! k = Some (Strings.Join v ", "))
  /\ (forall k, headers !! k = None -> safeLogHeaders headers !! k = None).
Proof.
  assert (Hauth : forall (h : gmap string (list string)) k v0 rest,
             Strings.EqualFold k "Authorization" = true ->
             h !! k = Some (v0 :: rest) ->
             safeLogHeaders h !! k
             = Some (substring 0 10 v0 +:+ "...")%string).
  { intros h k v0 rest Hk Hv. rewrite safeLogHeaders_lookup, Hv, Hk.
    cbn [fmap option_fmap option_map List.length Nat.ltb Nat.leb andb
           lookup list_lookup default id].
    cbv zeta. now rewrite substring_min. }
  repeat split.
  - now apply (Hauth headers k v0 rest).
  - rewrite substring_length. lia.
  - apply substring_prefix.
  - intros Hlen Heq. apply (f_equal String.length) in Heq.
    rewrite substring_length in Heq. lia.
  - intros k v0 rest headers' v0' rest' Hk Hv Hv' Heq.
    rewrite (Hauth headers k v0 rest), (Hauth headers' k v0' rest') by done.
    now rewrite Heq.
  - intros k v [Hk| ->] Hv; rewrite safeLogHeaders_lookup, Hv.
    + now rewrite Hk.
    + cbn. now rewrite andb_false_r.
  - intros k Hk. rewrite safeLogHeaders_lookup, Hk. reflexivity.
Qed.

Lemma safeLogHeaders_redacts_witness :
  safeLogHeaders Examples.bearer !! "authorization"%string
  = Some "Bearer sk-..."%string
  /\ safeLogHeaders Examples.bearer !! "Accept"%string
     = Some "image/png, image/jpeg"%string.
Proof.
  destruct (safeLogHeaders_redacts Examples.bearer) as (Ha & _ & Ho & _).
  split.
  - apply (Ha "authorization"%string "Bearer sk-0123456789abcdef"%string []);
      reflexivity.
  - apply (Ho "Accept"%string ["image/png"; "image/jpeg"]%string);
      [left|]; reflexivity.
Defined.

(** C9, as stated, fails: a credential made of ten bytes and three dots is
    longer than ten bytes, and the value returned for it is the whole
    credential. *)
Lemma safeLogHeaders_returns_dotted_credential :
  Examples.dotted !! "Authorization"%string = Some ["0123456789..."%string]
  /\ (10 < String.length "0123456789...")%nat
  /\ safeLogHeaders Examples.dotted !! "Authorization"%string
     = Some "0123456789..."%string.
Proof. repeat split. cbn. lia. Qed.

(** ** Decoding the upstream response *)

Section Decode_facts.

Context {S : Type} (field : S -> string * json -> option S).

Lemma members_from_None members :
  foldl (fun acc m => acc ≫= fun s => field s m) None members = None.
Proof. induction members as [|m ms IH]; [reflexivity|exact IH]. Qed.

Lemma members_into_cons cur m members :
  members_into field cur (m :: members) =
  field cur m ≫= fun s => members_into field s members.
Proof.
  unfold members_into. cbn [foldl mbind option_bind].
  destruct (field cur m) as [s|]; [reflexivity|].
  apply members_from_None.
Qed.

(** Members that leave the struct as it is can be dropped. *)
Lemma members_into_filter (known : string -> bool) members :
  (forall s m, known m.1 = false -> field s m = Some s) ->
  forall cur,
    members_into field cur (List.filter (fun m => known m.1) members)
    = members_into field cur members.
Proof.
  intros Hskip. induction members as [|m ms IH]; intros cur; [reflexivity|].
  cbn [List.filter]. destruct (known m.1) eqn:E.
  - rewrite !members_into_cons. destruct (field cur m); [apply IH|reflexivity].
  - rewrite members_into_cons, (Hskip cur m E). apply IH.
Qed.

(** Members may be replaced by members that decode alike. *)
Lemma members_into_fmap (g : string * json -> string * json) members :
  (forall s m, field s (g m) = field s m) ->
  forall cur,
    members_into field cur (g <$> members) = members_into field cur members.
Proof.
  intros Hg. induction members as [|m ms IH]; intros cur; [reflexivity|].
  rewrite fmap_cons, !members_into_cons, Hg.
  destruct (field cur m); [apply IH|reflexivity].
Qed.

Lemma members_into_app cur before after :
  members_into field cur (before ++ after) =
  members_into field cur before ≫= fun s => members_into field s after.
Proof.
  revert cur. induction before as [|m ms IH]; intros cur; [reflexivity|].
  cbn [app]. rewrite !members_into_cons.
  destruct (field cur m); [apply IH|reflexivity].
Qed.

End Decode_facts.

Lemma unmarshal_Image_field_unknown img m :
  known_Image m.1 = false -> unmarshal_Image_field img m = Some img.
Proof.
  unfold known_Image, unmarshal_Image_field. intros H.
  apply orb_false_iff in H as [-> ->]. reflexivity.
Qed.

Lemma unmarshal_TimingDetails_field_unknown t m :
  known_TimingDetails m.1 = false ->
  unmarshal_TimingDetails_field t m = Some t.
Proof.
  unfold known_TimingDetails, unmarshal_TimingDetails_field.
  now intros ->.
Qed.

Lemma unmarshal_OriginResponse_field_unknown o m :
  known_OriginResponse m.1 = false ->
  unmarshal_OriginResponse_field o m = Some o.
Proof.
  unfold known_OriginResponse, unmarshal_OriginResponse_field. intros H.
  apply orb_false_iff in H as [H ->].
  apply orb_false_iff in H as [-> ->]. reflexivity.
Qed.

Lemma unmarshal_Image_known cur j :
  unmarshal_Image cur (known_members known_Image j) = unmarshal_Image cur j.
Proof.
  destruct j; try reflexivity. cbn [known_members unmarshal_Image].
  apply members_into_filter. intros. now apply unmarshal_Image_field_unknown.
Qed.

Lemma unmarshal_TimingDetails_known cur j :
  unmarshal_TimingDetails cur (known_members known_TimingDetails j)
  = unmarshal_TimingDetails cur j.
Proof.
  destruct j; try reflexivity.
  cbn [known_members unmarshal_TimingDetails].
  apply members_into_filter. intros.
  now apply unmarshal_TimingDetails_field_unknown.
Qed.

Lemma unmarshal_elems_known xs :
  forall slots,
    unmarshal_elems slots (known_members known_Image <$> xs)
    = unmarshal_elems slots xs.
Proof.
  induction xs as [|x xs IH]; intros slots; [reflexivity|].
  rewrite fmap_cons. cbn [unmarshal_elems].
  now rewrite unmarshal_Image_known, IH.
Qed.

Lemma unmarshal_Images_known cur j :
  unmarshal_Images cur (known_Images j) = unmarshal_Images cur j.
Proof.
  destruct j as [| | | |xs|]; try reflexivity.
  destruct xs as [|x xs]; [reflexivity|].
  cbn [known_Images]. rewrite fmap_cons.
  unfold unmarshal_Images. rewrite <- fmap_cons.
  now rewrite unmarshal_elems_known, length_fmap.
Qed.

Lemma unmarshal_OriginResponse_known cur j :
  unmarshal_OriginResponse cur (known_only j) = unmarshal_OriginResponse cur j.
Proof.
  destruct j as [| | | | |members]; try reflexivity.
  cbn [known_only unmarshal_OriginResponse].
  rewrite members_into_fmap.
  - apply members_into_filter. intros.
    now apply unmarshal_OriginResponse_field_unknown.
  - intros o [key v]. unfold unmarshal_OriginResponse_field. cbn [fst snd].
    destruct (field_match "images" key) eqn:E1; cbn [fst snd].
    + now rewrite E1, unmarshal_Images_known.
    + destruct (field_match "timings" key) eqn:E2; cbn [fst snd].
      * now rewrite E1, E2, unmarshal_TimingDetails_known.
      * now rewrite E1, E2.
Qed.

(** C8. Decoding the upstream body never depends on members the structs
    do not declare: the body decodes exactly as it does with every such
    member removed (at the top level, inside [timings] and inside each
    image), so an added member, whatever its value and wherever it
    stands among the others, neither makes decoding fail nor changes the
    fields decoded from [images], [timings] and [seed]. *)
Theorem Decode_OriginResponse_ignores_unknown :
  (forall j, Decode_OriginResponse j = Decode_OriginResponse (known_only j))
  /\ (forall before key value after,
         known_OriginResponse key = false ->
         Decode_OriginResponse (JObject (before ++ (key, value) :: after))
         = Decode_OriginResponse (JObject (before ++ after))).
Proof.
  split.
  - intros j. unfold Decode_OriginResponse.
    now rewrite unmarshal_OriginResponse_known.
  - intros before key value after Hkey.
    unfold Decode_OriginResponse. cbn [unmarshal_OriginResponse].
    rewrite !members_into_app.
    destruct (members_into _ _ before) as [o|]; [|reflexivity].
    cbn [mbind option_bind]. rewrite members_into_cons.
    now rewrite (unmarshal_OriginResponse_field_unknown o (key, value)).
Qed.

Lemma Decode_OriginResponse_ignores_unknown_witness :
  Decode_OriginResponse Examples.drifted
  = Some (mkOriginResponse
            (mkSlice [mkImage "https://img/0" "first" None] [] false)
            (mkTimingDetails "1.5") "42").
Proof.
  destruct Decode_OriginResponse_ignores_unknown as [_ H].
  etransitivity.
  - exact (H [("images", JArray [JObject [("url", JString "https://img/0");
                                          ("revised_prompt", JString "first")]]);
              ("timings", JObject [("inference", JNumber "1.5")]);
              ("seed", JNumber "42")]
             "nsfw_flags"%string (JArray [JBool false]) [] eq_refl).
  - reflexivity.
Defined.

(** ** The fan-out: goroutines, channels and the collecting loop *)

Section FanOut_facts.

Local Open Scope nat_scope.

Variable originResp : OriginResponse.
Variable get : nat -> string -> GetResult.

Abbreviation N := (capacity originResp).
Abbreviation step := (step originResp get).
Abbreviation run := (run originResp get).
Abbreviation item_of := (item_of originResp get).
Abbreviation get_of := (get_of originResp).
Abbreviation Inv := (Inv originResp get).
Abbreviation spawned := (spawned originResp).
Abbreviation downloadImage := (downloadImage originResp get).

Lemma run_app sched1 sched2 s :
  run (sched1 ++ sched2) s = run sched1 s ≫= run sched2.
Proof.
  revert s. induction sched1 as [|a sched1 IH]; intros s; [reflexivity|].
  cbn [app FanOut.run]. destruct (step s a) as [s'|]; [apply IH|reflexivity].
Qed.

(** What a step of each kind requires and does. *)
Lemma step_Finish s i s' :
  step s (Finish i) = Some s' ->
  i ∈ running s /\
  exists img, elems (Images originResp) !! i = Some img /\
    running s' = running s ∖ {[i]} /\ results s' = results s /\
    pending s' = pending s /\ gets s' = gets s ++ [Get i (URL img)] /\
    ((exists item, downloadImage (URL img) i = SendResult item /\
                   List.length (resultChan s) < N /\
                   resultChan s' = resultChan s ++ [item] /\
                   errorChan s' = errorChan s)
     \/ (exists err, downloadImage (URL img) i = SendError err /\
                     List.length (errorChan s) < N /\
                     resultChan s' = resultChan s /\
                     errorChan s' = errorChan s ++ [err])).
Proof.
  cbn [FanOut.step]. case_bool_decide as Hi; [|discriminate].
  destruct (elems (Images originResp) !! i) as [img|]; [|discriminate].
  destruct (downloadImage (URL img) i) as [item|err] eqn:Hsend;
    case_bool_decide as Hroom; try discriminate; intros [= <-];
    (split; [exact Hi|]); exists img; cbn; repeat split; eauto 10.
Qed.

Lemma step_RecvResult s s' :
  step s RecvResult = Some s' ->
  exists res queue,
    resultChan s = res :: queue /\ pending s = S (pending s') /\
    running s' = running s /\ resultChan s' = queue /\
    errorChan s' = errorChan s /\ results s' = results s ++ [res] /\
    gets s' = gets s.
Proof.
  cbn [FanOut.step]. destruct (pending s) as [|n]; [discriminate|].
  destruct (resultChan s) as [|res queue]; [discriminate|].
  intros [= <-]. exists res, queue. cbn. repeat split.
Qed.

Lemma step_RecvError s s' :
  step s RecvError = Some s' ->
  exists err queue,
    errorChan s = err :: queue /\ pending s = S (pending s') /\
    running s' = running s /\ resultChan s' = resultChan s /\
    errorChan s' = queue /\ results s' = results s ++ [blank] /\
    gets s' = gets s.
Proof.
  cbn [FanOut.step]. destruct (pending s) as [|n]; [discriminate|].
  destruct (errorChan s) as [|err queue]; [discriminate|].
  intros [= <-]. exists err, queue. cbn. repeat split.
Qed.

Lemma elements_set_seq_0 n : elements (set_seq 0 n : gset nat) ≡ₚ seq 0 n.
Proof.
  apply NoDup_Permutation.
  - apply NoDup_elements.
  - apply NoDup_seq.
  - intros i. rewrite elem_of_elements, elem_of_set_seq, elem_of_seq. lia.
Qed.

Lemma elements_remove (X : gset nat) i :
  i ∈ X -> elements X ≡ₚ i :: elements (X ∖ {[i]}).
Proof.
  intros Hi. rewrite (union_difference_singleton_L i X Hi) at 1.
  apply elements_union_singleton.
  rewrite elem_of_difference, elem_of_singleton. tauto.
Qed.

Lemma size_remove (X : gset nat) i :
  i ∈ X -> size X = S (size (X ∖ {[i]})).
Proof.
  intros Hi. rewrite (union_difference_singleton_L i X Hi) at 1.
  rewrite size_union, size_singleton; [reflexivity|].
  apply disjoint_singleton_l.
  rewrite elem_of_difference, elem_of_singleton. tauto.
Qed.

Lemma item_of_at i img :
  elems (Images originResp) !! i = Some img ->
  item_of i = match downloadImage (URL img) i with
              | SendResult item => item
              | SendError _ => blank
              end.
Proof. intros H. unfold FanOut.item_of. now rewrite H. Qed.

Lemma get_of_at i img :
  elems (Images originResp) !! i = Some img -> get_of i = Get i (URL img).
Proof. intros H. unfold FanOut.get_of. now rewrite H. Qed.

Lemma Inv_spawned : Inv spawned.
Proof.
  split; cbn.
  - rewrite size_set_seq. lia.
  - lia.
  - intros i Hi. apply elem_of_set_seq in Hi. lia.
  - now rewrite elements_set_seq_0.
  - now rewrite elements_set_seq_0.
Qed.

Lemma Inv_step s a s' : Inv s -> step s a = Some s' -> Inv s'.
Proof.
  intros [Hp Hr Hi Hitems Hgets] Hstep. destruct a as [i| |].
  - apply step_Finish in Hstep
      as (Hin & img & Himg & Hrun & Hres & Hpend & Hg & Hsent).
    pose proof (size_remove _ _ Hin) as Hsize.
    pose proof (elements_remove _ _ Hin) as Hel.
    assert (Hgets' : gets s' ++ (get_of <$> elements (running s'))
                     ≡ₚ get_of <$> seq 0 N).
    { rewrite <- Hgets, Hg, Hrun, Hel, fmap_cons, (get_of_at i img Himg).
      rewrite <- app_assoc. reflexivity. }
    destruct Hsent as [(item & Hsend & Hroom & Hrc & Hec)
                      |(err & Hsend & Hroom & Hrc & Hec)].
    + split.
      * rewrite Hpend, Hp, Hrun, Hrc, Hec, length_app, Hsize. cbn. lia.
      * now rewrite Hres, Hpend.
      * intros j Hj. apply Hi. rewrite Hrun in Hj.
        now apply elem_of_difference in Hj as [Hj _].
      * rewrite <- Hitems, Hres, Hrc, Hec, Hrun, Hel, fmap_cons.
        rewrite (item_of_at i img Himg), Hsend.
        apply Permutation_app_head. rewrite <- app_assoc. cbn [app].
        apply Permutation_app_head.
        now rewrite <- Permutation_middle.
      * exact Hgets'.
    + split.
      * rewrite Hpend, Hp, Hrun, Hrc, Hec, length_app, Hsize. cbn. lia.
      * now rewrite Hres, Hpend.
      * intros j Hj. apply Hi. rewrite Hrun in Hj.
        now apply elem_of_difference in Hj as [Hj _].
      * rewrite <- Hitems, Hres, Hrc, Hec, Hrun, Hel, fmap_cons.
        rewrite (item_of_at i img Himg), Hsend.
        apply Permutation_app_head, Permutation_app_head.
        rewrite fmap_app. cbn [fmap list_fmap].
        rewrite <- app_assoc. cbn [app]. reflexivity.
      * exact Hgets'.
  - apply step_RecvResult in Hstep
      as (res & queue & Hrc & Hpend & Hrun & Hrc' & Hec & Hres & Hg).
    split.
    + rewrite Hrun, Hrc', Hec. rewrite Hpend, Hrc in Hp. cbn in Hp. lia.
    + rewrite Hres, length_app. cbn. lia.
    + intros j Hj. apply Hi. now rewrite <- Hrun.
    + rewrite <- Hitems, Hres, Hrc', Hec, Hrun, Hrc.
      rewrite <- app_assoc. reflexivity.
    + now rewrite Hg, Hrun.
  - apply step_RecvError in Hstep
      as (err & queue & Hec & Hpend & Hrun & Hrc & Hec' & Hres & Hg).
    split.
    + rewrite Hrun, Hrc, Hec'. rewrite Hpend, Hec in Hp. cbn in Hp. lia.
    + rewrite Hres, length_app. cbn. lia.
    + intros j Hj. apply Hi. now rewrite <- Hrun.
    + rewrite <- Hitems, Hres, Hrc, Hec', Hrun, Hec.
      rewrite <- app_assoc. cbn [fmap list_fmap app].
      apply Permutation_app_head. now rewrite <- Permutation_middle.
    + now rewrite Hg, Hrun.
Qed.

Lemma Inv_run sched : forall s s', Inv s -> run sched s = Some s' -> Inv s'.
Proof.
  induction sched as [|a sched IH]; intros s s' HI Hrun.
  - cbn in Hrun. congruence.
  - cbn [FanOut.run] in Hrun.
    destruct (step s a) as [s1|] eqn:Hstep; [|discriminate].
    eapply IH; [eapply Inv_step; eassumption|exact Hrun].
Qed.

Lemma Inv_collected s :
  Inv s -> collected s = true ->
  running s = ∅ /\ resultChan s = [] /\ errorChan s = []
  /\ List.length (results s) = N
  /\ results s ≡ₚ item_of <$> seq 0 N
  /\ gets s ≡ₚ get_of <$> seq 0 N.
Proof.
  intros [Hp Hr Hi Hitems Hgets] Hc.
  apply bool_decide_eq_true in Hc. rewrite Hc in Hp, Hr.
  assert (Hrun : running s = ∅).
  { apply leibniz_equiv, size_empty_inv. lia. }
  assert (Hrc : resultChan s = []) by (apply length_zero_iff_nil; lia).
  assert (Hec : errorChan s = []) by (apply length_zero_iff_nil; lia).
  rewrite Hrun, Hrc, Hec, elements_empty in Hitems.
  rewrite Hrun, elements_empty in Hgets.
  cbn [fmap list_fmap app] in Hitems, Hgets.
  rewrite app_nil_r in Hitems, Hgets.
  repeat split; try assumption. lia.
Qed.

(** No deadlock: while the loop has iterations left, a value is waiting in
    a channel or a goroutine is still running and has room to send. *)
Lemma Inv_progress s :
  Inv s -> collected s = false -> exists a s', step s a = Some s'.
Proof.
  intros [Hp Hr Hi Hitems Hgets] Hc.
  apply bool_decide_eq_false in Hc.
  destruct (pending s) as [|n] eqn:Hpend; [done|].
  destruct (resultChan s) as [|res queue] eqn:Hrc.
  - destruct (errorChan s) as [|err queue] eqn:Hec.
    + destruct (size_pos_elem_of (running s)) as [i Hin]; [cbn in Hp; lia|].
      pose proof (Hi i Hin) as Hlt.
      destruct (lookup_lt_is_Some_2 (elems (Images originResp)) i Hlt)
        as [img Himg].
      exists (Finish i). cbn [FanOut.step].
      rewrite bool_decide_eq_true_2 by exact Hin. rewrite Himg.
      destruct (downloadImage (URL img) i).
      * rewrite Hrc, bool_decide_eq_true_2 by (cbn; lia). eauto.
      * rewrite Hec, bool_decide_eq_true_2 by (cbn; lia). eauto.
    + exists RecvError. cbn [FanOut.step]. rewrite Hpend, Hec. eauto.
  - exists RecvResult. cbn [FanOut.step]. rewrite Hpend, Hrc. eauto.
Qed.

(** Every step uses up one of the steps left. *)
Lemma steps_left_step s a s' :
  Inv s -> step s a = Some s' -> steps_left s = S (steps_left s').
Proof.
  intros HI Hstep. unfold steps_left. destruct a as [i| |].
  - apply step_Finish in Hstep
      as (Hin & img & _ & Hrun & _ & _ & _ & Hsent).
    pose proof (size_remove _ _ Hin) as Hsize. rewrite Hrun.
    destruct Hsent as [(item & _ & _ & -> & ->)|(err & _ & _ & -> & ->)];
      rewrite length_app; cbn; lia.
  - apply step_RecvResult in Hstep
      as (res & queue & Hrc & _ & -> & -> & -> & _).
    rewrite Hrc. cbn. lia.
  - apply step_RecvError in Hstep
      as (err & queue & Hec & _ & -> & -> & -> & _).
    rewrite Hec. cbn. lia.
Qed.

Lemma steps_left_run sched :
  forall s s', Inv s -> run sched s = Some s' ->
               steps_left s = List.length sched + steps_left s'.
Proof.
  induction sched as [|a sched IH]; intros s s' HI Hrun.
  - cbn in Hrun. injection Hrun as ->. reflexivity.
  - cbn [FanOut.run] in Hrun.
    destruct (step s a) as [s1|] eqn:Hstep; [|discriminate].
    rewrite (steps_left_step s a s1 HI Hstep).
    rewrite (IH s1 s' (Inv_step _ _ _ HI Hstep) Hrun). cbn. lia.
Qed.

(** The downloads received in turn. *)
Lemma set_seq_remove_first k n :
  (set_seq k (S n) : gset nat) ∖ {[k]} = set_seq (S k) n.
Proof.
  apply set_eq. intros i.
  rewrite elem_of_difference, !elem_of_set_seq, elem_of_singleton. lia.
Qed.

Lemma run_in_turn k :
  k < N ->
  run (in_turn originResp get k) (served originResp get k)
  = Some (served originResp get (S k)).
Proof.
  intros Hk.
  destruct (lookup_lt_is_Some_2 (elems (Images originResp)) k Hk)
    as [img Himg].
  assert (Hin : k ∈ (set_seq k (N - k) : gset nat)).
  { apply elem_of_set_seq. lia. }
  assert (Hset : (set_seq k (N - k) : gset nat) ∖ {[k]}
                 = set_seq (S k) (N - S k)).
  { replace (N - k) with (S (N - S k)) by lia. apply set_seq_remove_first. }
  assert (Hpend : N - k = S (N - S k)) by lia.
  pose proof (item_of_at k img Himg) as Hitem.
  pose proof (get_of_at k img Himg) as Hget.
  assert (Hturn : in_turn originResp get k
                  = match downloadImage (URL img) k with
                    | SendResult _ => [Finish k; RecvResult]
                    | SendError _ => [Finish k; RecvError]
                    end).
  { unfold in_turn. now rewrite Himg. }
  rewrite Hturn. unfold served.
  destruct (downloadImage (URL img) k) as [item|err] eqn:Hsend;
    cbn [FanOut.run FanOut.step running resultChan errorChan results
         pending gets mbind option_bind];
    rewrite bool_decide_eq_true_2 by exact Hin;
    rewrite Himg, Hsend;
    rewrite bool_decide_eq_true_2 by (cbn; lia);
    cbn [FanOut.run FanOut.step running resultChan errorChan results
         pending gets mbind option_bind app];
    rewrite Hset, Hpend; cbn [mbind option_bind];
    rewrite seq_S, !fmap_app; cbn [fmap list_fmap Nat.add];
    rewrite Hitem, Hget; reflexivity.
Qed.

Lemma run_sequential_from m :
  forall k, k + m <= N ->
    run (concat (in_turn originResp get <$> seq k m))
        (served originResp get k)
    = Some (served originResp get (k + m)).
Proof.
  induction m as [|m IH]; intros k Hk.
  - cbn. now rewrite Nat.add_0_r.
  - cbn [seq fmap list_fmap concat]. rewrite run_app.
    rewrite run_in_turn by lia. cbn [mbind option_bind].
    rewrite IH by lia. now rewrite Nat.add_succ_r.
Qed.

Lemma served_0 : served originResp get 0 = spawned.
Proof. unfold served, FanOut.spawned. now rewrite Nat.sub_0_r. Qed.

(** Received in turn, the downloads come out in the order of the
    references. *)
Lemma run_sequential :
  run (sequential originResp get) spawned
  = Some (mkState ∅ [] [] (item_of <$> seq 0 N) 0 (get_of <$> seq 0 N)).
Proof.
  unfold sequential. rewrite <- served_0.
  rewrite (run_sequential_from N 0) by lia.
  unfold served. cbn [Nat.add]. now rewrite Nat.sub_diag.
Qed.

End FanOut_facts.

(** C2. The fan-out produces exactly one item per image reference,
    however many downloads fail: every complete run ends with as many
    results as there are references, after exactly two steps for each; no
    run gets stuck before the loop is over and none is longer than that,
    and a complete run exists.  Without references the loop is over at
    once: no goroutine was started, nothing is downloaded and the result
    is empty. *)
Theorem fanout_length (originResp : OriginResponse)
    (get : nat -> string -> GetResult) :
  let N := List.length (elems (Images originResp)) in
  (forall sched s,
      run originResp get sched (spawned originResp) = Some s ->
      collected s = true ->
      List.length (results s) = N /\ List.length sched = (2 * N)%nat)
  /\ (forall sched s,
      run originResp get sched (spawned originResp) = Some s ->
      collected s = false ->
      exists a s', step originResp get s a = Some s')
  /\ (forall sched s,
      run originResp get sched (spawned originResp) = Some s ->
      (List.length sched <= 2 * N)%nat)
  /\ (exists s,
      run originResp get (sequential originResp get) (spawned originResp)
      = Some s /\ collected s = true)
  /\ (N = 0%nat ->
      collected (spawned originResp) = true
      /\ running (spawned originResp) = ∅
      /\ forall sched s,
           run originResp get sched (spawned originResp) = Some s ->
           sched = [] /\ results s = [] /\ gets s = []).
Proof.
  intros N.
  assert (Hleft : steps_left (spawned originResp) = (2 * N)%nat).
  { unfold steps_left. cbn. rewrite size_set_seq. unfold capacity. lia. }
  assert (Hbound : forall sched s,
             run originResp get sched (spawned originResp) = Some s ->
             (List.length sched + steps_left s = 2 * N)%nat).
  { intros sched s Hrun. rewrite <- Hleft. symmetry.
    apply (steps_left_run originResp get sched _ _
             (Inv_spawned originResp get) Hrun). }
  assert (Hempty : N = 0%nat -> forall sched s,
             run originResp get sched (spawned originResp) = Some s ->
             sched = [] /\ s = spawned originResp).
  { intros HN sched s Hrun. specialize (Hbound sched s Hrun).
    rewrite HN in Hbound.
    destruct sched as [|a sched]; [|cbn in Hbound; lia].
    cbn in Hrun. split; congruence. }
  split; [|split; [|split; [|split]]].
  - intros sched s Hrun Hc.
    pose proof (Inv_run originResp get sched _ _
                  (Inv_spawned originResp get) Hrun) as HI.
    destruct (Inv_collected originResp get s HI Hc)
      as (Hr & Hrc & Hec & Hlen & _).
    split; [exact Hlen|].
    specialize (Hbound sched s Hrun). unfold steps_left in Hbound.
    rewrite Hr, Hrc, Hec, size_empty in Hbound. cbn in Hbound. lia.
  - intros sched s Hrun Hc.
    apply (Inv_progress originResp get s); [|exact Hc].
    exact (Inv_run originResp get sched _ _
             (Inv_spawned originResp get) Hrun).
  - intros sched s Hrun. specialize (Hbound sched s Hrun). lia.
  - eexists. split; [apply run_sequential|reflexivity].
  - intros HN. split; [|split].
    + unfold collected, spawned, capacity. fold N. rewrite HN. reflexivity.
    + unfold spawned, capacity. fold N. rewrite HN. reflexivity.
    + intros sched s Hrun.
      destruct (Hempty HN sched s Hrun) as [-> ->]. now repeat split.
Qed.

Lemma fanout_length_witness :
  List.length
    [mkOpenAIDataItem "AQID" "second"; mkOpenAIDataItem "" ""] = 2%nat
  /\ List.length [Finish 1; Finish 0; RecvResult; RecvError] = 4%nat.
Proof.
  destruct (fanout_length Examples.two_images Examples.second_served)
    as (H & _).
  exact (H [Finish 1; Finish 0; RecvResult; RecvError]
           (mkState ∅ [] []
              [mkOpenAIDataItem "AQID" "second"; mkOpenAIDataItem "" ""]
              0 [Get 1 "https://img/1"; Get 0 "https://img/0"])
           eq_refl eq_refl).
Defined.

(** C1, as amended. The results are the items of the references in the
    order in which the collecting loop receives them: every complete run
    yields a permutation of the items of references [0 .. N-1], one item
    for each reference, and the run that receives the downloads in turn
    yields them in the order of the references. *)
Theorem fanout_results_permutation (originResp : OriginResponse)
    (get : nat -> string -> GetResult) :
  let N := List.length (elems (Images originResp)) in
  (forall sched s,
      run originResp get sched (spawned originResp) = Some s ->
      collected s = true ->
      results s ≡ₚ item_of originResp get <$> seq 0 N)
  /\ (exists s,
      run originResp get (sequential originResp get) (spawned originResp)
      = Some s
      /\ collected s = true
      /\ results s = item_of originResp get <$> seq 0 N).
Proof.
  intros N. split.
  - intros sched s Hrun Hc.
    pose proof (Inv_run originResp get sched _ _
                  (Inv_spawned originResp get) Hrun) as HI.
    now destruct (Inv_collected originResp get s HI Hc)
      as (_ & _ & _ & _ & ? & _).
  - eexists. split; [apply run_sequential|]. split; reflexivity.
Qed.

Lemma fanout_results_permutation_witness :
  [mkOpenAIDataItem "AQID" "second"; mkOpenAIDataItem "AQID" "first"]
  ≡ₚ [mkOpenAIDataItem "AQID" "first"; mkOpenAIDataItem "AQID" "second"].
Proof.
  destruct (fanout_results_permutation Examples.two_images
              Examples.all_served) as (H & _).
  exact (H [Finish 1; Finish 0; RecvResult; RecvResult]
           (mkState ∅ [] []
              [mkOpenAIDataItem "AQID" "second";
               mkOpenAIDataItem "AQID" "first"]
              0 [Get 1 "https://img/1"; Get 0 "https://img/0"])
           eq_refl eq_refl).
Defined.

(** C1, as stated, fails: when the second download finishes first, the
    results hold its item first, so the item at position 0 is not the
    item of reference 0. *)
Lemma fanout_follows_completion_order :
  exists s,
    run Examples.two_images Examples.all_served
        [Finish 1; Finish 0; RecvResult; RecvResult]
        (spawned Examples.two_images) = Some s
    /\ collected s = true
    /\ results s = [mkOpenAIDataItem "AQID" "second";
                    mkOpenAIDataItem "AQID" "first"]
    /\ item_of Examples.two_images Examples.all_served 0
       = mkOpenAIDataItem "AQID" "first"
    /\ results s !! 0%nat
       <> Some (item_of Examples.two_images Examples.all_served 0).
Proof.
  eexists. split; [reflexivity|]. repeat split. discriminate.
Qed.

(** ** [handleGenerations] *)

Section handleGenerations_facts.

Variable env : Env.
Variable sched : list Action.
Variable r : Request.

Lemma index_map_size reqBody key :
  key <> "size"%string -> key <> "image_size"%string ->
  index (map_size reqBody) key = index reqBody key.
Proof.
  intros Hs Hi. unfold map_size.
  destruct (index reqBody "size") as [size|]; [|reflexivity].
  destruct reqBody as [m|]; [|reflexivity].
  cbn. rewrite lookup_delete_ne by congruence.
  now rewrite lookup_insert_ne by congruence.
Qed.

Lemma responseFormat_b64 reqBody :
  String.eqb (responseFormat (map_size reqBody)) "b64_json" = true <->
  index reqBody "response_format" = Some (JString "b64_json").
Proof.
  unfold responseFormat. rewrite index_map_size by discriminate.
  rewrite String.eqb_eq.
  destruct (index reqBody "response_format") as [[| | |s| |]|];
    split; try discriminate; congruence.
Qed.

(** The pass-through branch: one call to the upstream service, no
    download, whatever the schedule. *)
Lemma handleGenerations_passthrough reqBody :
  Body r = DecodeOK reqBody ->
  index reqBody "response_format" <> Some (JString "b64_json") ->
  exists resp,
    handleGenerations env sched r
    = Some ([Post (map_size reqBody) (Header r)], resp)
    /\ (forall j originResp,
           Do env (map_size reqBody) (Header r) = DoResp (Some j) ->
           Decode_OriginResponse j = Some originResp ->
           resp = Encode_OriginResponse originResp).
Proof.
  intros Hbody Hfmt. unfold handleGenerations. rewrite Hbody.
  destruct (Do env (map_size reqBody) (Header r)) as [err|body].
  - eexists. split; [reflexivity|]. intros j o [=].
  - destruct (body ≫= Decode_OriginResponse) as [o|] eqn:Hdec.
    + destruct (String.eqb (responseFormat (map_size reqBody)) "b64_json")
        eqn:E.
      * apply responseFormat_b64 in E. contradiction.
      * cbn [negb]. eexists. split; [reflexivity|].
        intros j o' [= ->] Hj. cbn in Hdec. congruence.
    + eexists. split; [reflexivity|].
      intros j o' [= ->] Hj. cbn in Hdec. congruence.
Qed.

(** The inline branch: the answer is built from a complete run of the
    fan-out over the decoded upstream response. *)
Lemma handleGenerations_inline reqBody j originResp effects resp :
  Body r = DecodeOK reqBody ->
  index reqBody "response_format" = Some (JString "b64_json") ->
  Do env (map_size reqBody) (Header r) = DoResp (Some j) ->
  Decode_OriginResponse j = Some originResp ->
  handleGenerations env sched r = Some (effects, resp) ->
  exists s,
    run originResp (httpGet env) sched (spawned originResp) = Some s
    /\ collected s = true
    /\ effects = Post (map_size reqBody) (Header r) :: gets s
    /\ resp = Encode_OpenAIResponse (mkOpenAIResponse (Now env) (results s)).
Proof.
  intros Hbody Hfmt Hdo Hdec. unfold handleGenerations.
  rewrite Hbody, Hdo. cbn [mbind option_bind]. rewrite Hdec.
  apply responseFormat_b64 in Hfmt. rewrite Hfmt. cbn [negb].
  destruct (run originResp (httpGet env) sched (spawned originResp))
    as [s|]; [|discriminate].
  destruct (collected s) eqn:Hc; [|discriminate].
  intros [= <- <-]. now exists s.
Qed.

(** The inline branch always has a complete run: the downloads received
    in turn. *)
Lemma handleGenerations_inline_in_turn reqBody j originResp :
  Body r = DecodeOK reqBody ->
  index reqBody "response_format" = Some (JString "b64_json") ->
  Do env (map_size reqBody) (Header r) = DoResp (Some j) ->
  Decode_OriginResponse j = Some originResp ->
  handleGenerations env (sequential originResp (httpGet env)) r
  = Some (Post (map_size reqBody) (Header r)
            :: (get_of originResp <$> seq 0 (capacity originResp)),
          Encode_OpenAIResponse
            (mkOpenAIResponse (Now env)
               (item_of originResp (httpGet env)
                  <$> seq 0 (capacity originResp)))).
Proof.
  intros Hbody Hfmt Hdo Hdec. unfold handleGenerations.
  rewrite Hbody, Hdo. cbn [mbind option_bind]. rewrite Hdec.
  apply responseFormat_b64 in Hfmt. rewrite Hfmt. cbn [negb].
  now rewrite run_sequential.
Qed.


End handleGenerations_facts.

(** C3, as amended. In the inline branch a failed download does not fail
    the request: the status stays 200 and the answer holds one item for
    each reference, in the order in which they were received.  The item of
    a reference whose download succeeded holds the encoded bytes and the
    revised prompt of that reference; the item of a reference whose
    download failed is blank: empty inline data and no revised prompt. *)
Theorem partial_failure_keeps_200 (env : Env) (sched : list Action)
    (r : Request) (reqBody : option (gmap string json)) (j : json)
    (originResp : OriginResponse) (effects : list Effect) (resp : Response) :
  Body r = DecodeOK reqBody ->
  index reqBody "response_format" = Some (JString "b64_json") ->
  Do env (map_size reqBody) (Header r) = DoResp (Some j) ->
  Decode_OriginResponse j = Some originResp ->
  handleGenerations env sched r = Some (effects, resp) ->
  (exists sched' out, handleGenerations env sched' r = Some out)
  /\ StatusCode resp = 200
  /\ exists data,
       resp = Encode_OpenAIResponse (mkOpenAIResponse (Now env) data)
       /\ data ≡ₚ item_of originResp (httpGet env)
                    <$> seq 0 (List.length (elems (Images originResp)))
       /\ forall i img,
            elems (Images originResp) !! i = Some img ->
            (forall bytes,
                httpGet env i (URL img) = GetResp 200 (ReadOK bytes) ->
                item_of originResp (httpGet env) i
                = mkOpenAIDataItem (Base64.EncodeToString bytes)
                                   (RevisedPrompt img))
            /\ ((forall bytes,
                    httpGet env i (URL img) <> GetResp 200 (ReadOK bytes)) ->
                item_of originResp (httpGet env) i = mkOpenAIDataItem "" "").
Proof.
  intros Hbody Hfmt Hdo Hdec Hrun.
  destruct (handleGenerations_inline env sched r reqBody j originResp
              effects resp Hbody Hfmt Hdo Hdec Hrun)
    as (s & Hs & Hc & -> & ->).
  split.
  { eexists _, _.
    exact (handleGenerations_inline_in_turn env r reqBody j originResp
             Hbody Hfmt Hdo Hdec). }
  split; [reflexivity|]. exists (results s). split; [reflexivity|].
  pose proof (Inv_run originResp (httpGet env) sched _ _
                (Inv_spawned originResp (httpGet env)) Hs) as HI.
  destruct (Inv_collected originResp (httpGet env) s HI Hc)
    as (_ & _ & _ & _ & Hperm & _).
  split; [exact Hperm|].
  intros i img Himg. rewrite (item_of_at originResp (httpGet env) i img Himg).
  split.
  - intros bytes Hget.
    rewrite (downloadImage_OK originResp (httpGet env) _ _ _ Hget).
    unfold prompt_at. now rewrite Himg.
  - intros Hfail.
    destruct (downloadImage originResp (httpGet env) (URL img) i)
      as [item|err] eqn:Hsend; [|reflexivity].
    apply downloadImage_result in Hsend as (bytes & Hget).
    now destruct (Hfail bytes).
Qed.

Lemma partial_failure_keeps_200_witness :
  StatusCode (Encode_OpenAIResponse
                (mkOpenAIResponse 1719501163 [mkOpenAIDataItem "" ""])) = 200
  /\ exists data,
       Encode_OpenAIResponse
         (mkOpenAIResponse 1719501163 [mkOpenAIDataItem "" ""])
       = Encode_OpenAIResponse (mkOpenAIResponse 1719501163 data)
       /\ data ≡ₚ [mkOpenAIDataItem "" ""].
Proof.
  destruct (partial_failure_keeps_200 Examples.upstream_drifted
              [Finish 0; RecvError] Examples.b64_request
              (Some {[ "prompt" := JString "a cat";
                       "response_format" := JString "b64_json" ]})
              Examples.drifted
              (mkOriginResponse
                 (mkSlice [mkImage "https://img/0" "first" None] [] false)
                 (mkTimingDetails "1.5") "42")
              [Post (Some {[ "prompt" := JString "a cat";
                             "response_format" := JString "b64_json" ]})
                    Examples.bearer;
               Get 0 "https://img/0"]
              (Encode_OpenAIResponse
                 (mkOpenAIResponse 1719501163 [mkOpenAIDataItem "" ""]))
              eq_refl eq_refl eq_refl eq_refl eq_refl)
    as (_ & Hstatus & data & Hresp & Hperm & _).
  split; [exact Hstatus|]. exists data. split; [exact Hresp|exact Hperm].
Defined.

(** C3, as stated, fails: the reference has the revised prompt
    ["first"], its download fails with status 404, and the item in the
    answer has no revised prompt. *)
Lemma failed_item_has_no_prompt :
  handleGenerations Examples.upstream_drifted [Finish 0; RecvError]
                    Examples.b64_request
  = Some ([Post (Some {[ "prompt" := JString "a cat";
                         "response_format" := JString "b64_json" ]})
                Examples.bearer;
           Get 0 "https://img/0"],
          Encode_OpenAIResponse
            (mkOpenAIResponse 1719501163 [mkOpenAIDataItem "" ""]))
  /\ Decode_OriginResponse Examples.drifted
     = Some (mkOriginResponse
               (mkSlice [mkImage "https://img/0" "first" None] [] false)
               (mkTimingDetails "1.5") "42")
  /\ ItemRevisedPrompt (mkOpenAIDataItem "" "")
     <> RevisedPrompt (mkImage "https://img/0" "first" None).
Proof. repeat split. discriminate. Qed.

(** C6, as amended. When [response_format] is absent or is anything but
    the string ["b64_json"], the handler calls the upstream service once
    and downloads nothing, whatever the schedule; when the upstream body
    decodes, the answer is the JSON encoding of the decoded
    [OriginResponse], that is of the fields the structs declare, with the
    default status. *)
Theorem passthrough_reencodes (env : Env) (sched : list Action)
    (r : Request) (reqBody : option (gmap string json)) :
  Body r = DecodeOK reqBody ->
  index reqBody "response_format" <> Some (JString "b64_json") ->
  exists resp,
    handleGenerations env sched r
    = Some ([Post (map_size reqBody) (Header r)], resp)
    /\ (forall j originResp,
           Do env (map_size reqBody) (Header r) = DoResp (Some j) ->
           Decode_OriginResponse j = Some originResp ->
           resp = Encode_OriginResponse originResp
           /\ StatusCode resp = 200).
Proof.
  intros Hbody Hfmt.
  destruct (handleGenerations_passthrough env sched r reqBody Hbody Hfmt)
    as (resp & Hrun & Hresp).
  exists resp. split; [exact Hrun|].
  intros j o Hdo Hdec. rewrite (Hresp j o Hdo Hdec). now split.
Qed.

Lemma passthrough_reencodes_witness :
  exists resp,
    handleGenerations Examples.upstream_drifted [] Examples.plain_request
    = Some ([Post (Some {[ "prompt" := JString "a cat" ]}) Examples.bearer],
            resp).
Proof.
  destruct (passthrough_reencodes Examples.upstream_drifted []
              Examples.plain_request
              (Some {[ "prompt" := JString "a cat" ]}) eq_refl)
    as (resp & Hrun & _).
  - discriminate.
  - exists resp. exact Hrun.
Defined.

(** C6, as stated, fails: the upstream body has the member [nsfw_flags],
    the answer is the encoding of the decoded struct, and that encoding
    is not the upstream body. *)
Lemma passthrough_not_verbatim :
  exists originResp,
    handleGenerations Examples.upstream_drifted [] Examples.plain_request
    = Some ([Post (Some {[ "prompt" := JString "a cat" ]}) Examples.bearer],
            Encode_OriginResponse originResp)
    /\ marshal_OriginResponse originResp
       = Some (JObject
                 [("images",
                   JArray [JObject [("url", JString "https://img/0");
                                    ("revised_prompt", JString "first")]]);
                  ("timings", JObject [("inference", JNumber "1.5")]);
                  ("seed", JNumber "42")])
    /\ marshal_OriginResponse originResp <> Some Examples.drifted.
Proof.
  eexists. split; [reflexivity|]. split; [reflexivity|]. discriminate.
Qed.



(** * Further properties of [main.go] *)

(** ** The field mapping of the request body *)

(** X1. When the request has a [size], the body sent upstream has no
    [size] any more and has it as [image_size], in place of any
    [image_size] the request had; every other key is forwarded as it
    came. *)
Theorem map_size_renames (m : gmap string json) (size : json) :
  m !! "size" = Some size ->
  exists m',
    map_size (Some m) = Some m'
    /\ m' !! "size" = None
    /\ m' !! "image_size" = Some size
    /\ forall key, key <> "size"%string -> key <> "image_size"%string ->
                   m' !! key = m !! key.
Proof.
  intros Hsize. unfold map_size. cbn [index mbind option_bind].
  rewrite Hsize. cbn [fmap option_fmap option_map].
  eexists. split; [reflexivity|]. split; [|split].
  - apply lookup_delete_eq.
  - rewrite lookup_delete_ne by discriminate. apply lookup_insert_eq.
  - intros key Hs Hi. rewrite lookup_delete_ne by congruence.
    now rewrite lookup_insert_ne by congruence.
Qed.

Lemma map_size_renames_witness :
  exists m',
    map_size (Some Inputs.sized_twice) = Some m'
    /\ m' !! "size"%string = None
    /\ m' !! "image_size"%string = Some (JString "1024x1024")
    /\ m' !! "prompt"%string = Some (JString "a cat").
Proof.
  destruct (map_size_renames Inputs.sized_twice (JString "1024x1024")
              eq_refl) as (m' & Hm & Hs & Hi & Hrest).
  exists m'. repeat split; try assumption.
  rewrite Hrest by discriminate. reflexivity.
Defined.

(** X2. The body sent upstream never has a [size]; a request without
    [size] (or with the body [null]) is forwarded unchanged, and mapping
    twice is the same as mapping once. *)
Theorem map_size_no_size (reqBody : option (gmap string json)) :
  index (map_size reqBody) "size" = None
  /\ (index reqBody "size" = None -> map_size reqBody = reqBody)
  /\ map_size (map_size reqBody) = map_size reqBody.
Proof.
  assert (Hnone : index (map_size reqBody) "size" = None).
  { unfold map_size. destruct (index reqBody "size") as [size|] eqn:E;
      [|exact E].
    destruct reqBody as [m|]; [|discriminate E]. cbn.
    apply lookup_delete_eq. }
  assert (Hid : forall b, index b "size" = None -> map_size b = b).
  { intros b Hb. unfold map_size. now rewrite Hb. }
  split; [exact Hnone|]. split; [apply Hid|]. now apply Hid.
Qed.

Lemma map_size_no_size_witness :
  map_size (Some {[ "prompt" := JString "a cat" ]})
  = Some {[ "prompt" := JString "a cat" ]}.
Proof.
  destruct (map_size_no_size (Some {[ "prompt" := JString "a cat" ]}))
    as (_ & H & _).
  apply H. reflexivity.
Defined.

(** ** The branches of [handleGenerations] *)

Section handleGenerations_branches.

Variable env : Env.
Variable sched : list Action.
Variable r : Request.

(** Every answer comes from one of the five returns of the handler. *)
Lemma handleGenerations_cases effects resp :
  handleGenerations env sched r = Some (effects, resp) ->
  (Body r = DecodeError /\ effects = []
   /\ resp = http_Error msgInvalidJSON StatusBadRequest)
  \/ exists reqBody,
       Body r = DecodeOK reqBody /\
       ((exists err,
            Do env (map_size reqBody) (Header r) = DoErr err
            /\ effects = [Post (map_size reqBody) (Header r)]
            /\ resp = http_Error msgUnavailable StatusBadGateway)
        \/ (exists body,
            Do env (map_size reqBody) (Header r) = DoResp body
            /\ body ≫= Decode_OriginResponse = None
            /\ effects = [Post (map_size reqBody) (Header r)]
            /\ resp = http_Error msgInvalidUpstream
                                 StatusInternalServerError)
        \/ (exists j originResp,
            Do env (map_size reqBody) (Header r) = DoResp (Some j)
            /\ Decode_OriginResponse j = Some originResp
            /\ ((index reqBody "response_format"
                 <> Some (JString "b64_json")
                 /\ effects = [Post (map_size reqBody) (Header r)]
                 /\ resp = Encode_OriginResponse originResp)
                \/ (index reqBody "response_format"
                    = Some (JString "b64_json")
                    /\ exists s,
                         run originResp (httpGet env) sched
                             (spawned originResp) = Some s
                         /\ collected s = true
                         /\ effects
                            = Post (map_size reqBody) (Header r) :: gets s
                         /\ resp = Encode_OpenAIResponse
                                     (mkOpenAIResponse (Now env)
                                                       (results s)))))).
Proof.
  unfold handleGenerations.
  destruct (Body r) as [|reqBody] eqn:Hbody.
  { intros [= <- <-]. now left. }
  intros Hrun. right. exists reqBody. split; [reflexivity|].
  destruct (Do env (map_size reqBody) (Header r)) as [err|body] eqn:Hdo.
  { injection Hrun as <- <-. left. now exists err. }
  destruct (body ≫= Decode_OriginResponse) as [o|] eqn:Hdec.
  2:{ injection Hrun as <- <-. right. left. now exists body. }
  destruct body as [j|]; [|discriminate Hdec]. cbn in Hdec.
  right. right. exists j, o. split; [reflexivity|]. split; [exact Hdec|].
  destruct (String.eqb (responseFormat (map_size reqBody)) "b64_json")
    eqn:E; cbn [negb] in Hrun.
  - apply responseFormat_b64 in E. right. split; [exact E|].
    destruct (run o (httpGet env) sched (spawned o)) as [s|];
      [|discriminate].
    destruct (collected s) eqn:Hc; [|discriminate].
    injection Hrun as <- <-. now exists s.
  - injection Hrun as <- <-. left. split; [|now split].
    intros H. apply responseFormat_b64 in H. congruence.
Qed.

End handleGenerations_branches.

(** The first return of the handler. *)
Lemma handleGenerations_DecodeError (env : Env) (sched : list Action)
    (r : Request) :
  Body r = DecodeError ->
  handleGenerations env sched r
  = Some ([], http_Error msgInvalidJSON StatusBadRequest).
Proof.
  intros Hbody. unfold handleGenerations. now rewrite Hbody.
Qed.

(** When [Decode] fails on a body. *)
Lemma Decode_reqBody_error ParseFloat_ok body :
  Decode_reqBody ParseFloat_ok body = DecodeError <->
  body = NotJSON
  \/ exists first trailing,
       body = Value first trailing
       /\ (numbers_ok ParseFloat_ok first = false
           \/ (first <> JNull /\ forall members, first <> JObject members)).
Proof.
  split.
  - destruct body as [|first trailing]; [now left|]. intros H. right.
    exists first, trailing. split; [reflexivity|]. cbn in H.
    destruct (numbers_ok ParseFloat_ok first); [|now left].
    right. destruct first; try discriminate H; split; discriminate.
  - intros [->|(first & trailing & -> & [Hnum|[Hnull Hobj]])];
      [reflexivity| |]; cbn.
    + now rewrite Hnum.
    + destruct (numbers_ok ParseFloat_ok first); [|reflexivity].
      destruct first; try reflexivity; [contradiction|].
      now destruct (Hobj members).
Qed.

(** C7, as amended. A request on whose body [Decode] fails, as it does on
    every body that does not start with a JSON value, is answered with
    status 400 and the body [{"error": "Invalid JSON"}] followed by a
    line feed; the upstream service is not called and nothing is
    downloaded.  [Decode] fails exactly when the body does not start
    with a JSON value, or starts with a value that is neither an object
    nor [null] or holds a number out of range; a body that starts with
    an object is decoded whatever follows the object, and the upstream
    service is then called. *)
Theorem undecodable_body_bad_request (ParseFloat_ok : string -> bool)
    (env : Env) (sched : list Action) (header : gmap string (list string))
    (body : RawBody) :
  (Decode_reqBody ParseFloat_ok body = DecodeError ->
   handleGenerations_raw ParseFloat_ok env sched header body
   = Some ([], http_Error msgInvalidJSON 400)
   /\ StatusCode (http_Error msgInvalidJSON 400) = 400
   /\ Written (http_Error msgInvalidJSON 400) = Some (msgInvalidJSON +:+ LF)
   /\ list_ascii_of_string (msgInvalidJSON +:+ LF)
      = ["{"; "034"; "e"; "r"; "r"; "o"; "r"; "034"; ":"; " "; "034";
         "I"; "n"; "v"; "a"; "l"; "i"; "d"; " "; "J"; "S"; "O"; "N";
         "034"; "}"; "010"]%char)
  /\ (Decode_reqBody ParseFloat_ok body = DecodeError <->
      body = NotJSON
      \/ exists first trailing,
           body = Value first trailing
           /\ (numbers_ok ParseFloat_ok first = false
               \/ (first <> JNull
                   /\ forall members, first <> JObject members)))
  /\ (forall members trailing effects resp,
         body = Value (JObject members) trailing ->
         numbers_ok ParseFloat_ok (JObject members) = true ->
         handleGenerations_raw ParseFloat_ok env sched header body
         = Some (effects, resp) ->
         StatusCode resp <> 400
         /\ exists downloads,
              effects
              = Post (map_size
                        (Some (foldl (fun m kv => <[kv.1 := kv.2]> m) ∅
                                     members)))
                     header :: downloads).
Proof.
  split; [|split].
  - intros Hdec. unfold handleGenerations_raw.
    rewrite (handleGenerations_DecodeError env sched
               (mkRequest header (Decode_reqBody ParseFloat_ok body)) Hdec).
    repeat split.
  - apply Decode_reqBody_error.
  - intros members trailing effects resp -> Hnum Hrun.
    unfold handleGenerations_raw in Hrun.
    assert (Hbody : Body (mkRequest header
                            (Decode_reqBody ParseFloat_ok
                               (Value (JObject members) trailing)))
                    = DecodeOK (Some (foldl (fun m kv => <[kv.1 := kv.2]> m)
                                            ∅ members))).
    { cbn [Body Decode_reqBody]. now rewrite Hnum. }
    destruct (handleGenerations_cases env sched _ effects resp Hrun)
      as [(Hbody' & _)|(reqBody & Hbody' & Hcases)]; [congruence|].
    rewrite Hbody in Hbody'. injection Hbody' as <-.
    cbn [Header] in Hcases.
    destruct Hcases as [(err & _ & -> & ->)
                       |[(b & _ & _ & -> & ->)
                        |(j & o & _ & _ &
                          [(_ & -> & ->)|(_ & s & _ & _ & -> & ->)])]];
      (split; [discriminate|eexists; reflexivity]).
Qed.

Lemma undecodable_body_bad_request_witness :
  handleGenerations_raw (fun _ => true) Examples.upstream_drifted []
                        Examples.bearer NotJSON
  = Some ([], http_Error msgInvalidJSON 400)
  /\ Written (http_Error msgInvalidJSON 400) = Some (msgInvalidJSON +:+ LF).
Proof.
  destruct (undecodable_body_bad_request (fun _ => true)
              Examples.upstream_drifted [] Examples.bearer NotJSON)
    as (H & _).
  destruct (H eq_refl) as (Hrun & _ & Hbody & _).
  split; [exact Hrun|exact Hbody].
Defined.

(** C7, as stated, fails: the body [{"prompt":"a cat"} not json] is not
    JSON, yet [Decode] reads the object and the handler calls the
    upstream service and answers 200, whether or not any number literal
    is accepted; and where the handler does answer 400, the body
    written is not the message alone but the message and a line feed. *)
Lemma object_then_words_is_forwarded :
  JSON_text object_then_words = false
  /\ handleGenerations_raw (fun _ => false) Examples.upstream_drifted []
                           Examples.bearer object_then_words
     = Some ([Post (Some {[ "prompt" := JString "a cat" ]}) Examples.bearer],
             Encode_OriginResponse
               (mkOriginResponse
                  (mkSlice [mkImage "https://img/0" "first" None] [] false)
                  (mkTimingDetails "1.5") "42"))
  /\ StatusCode
       (Encode_OriginResponse
          (mkOriginResponse
             (mkSlice [mkImage "https://img/0" "first" None] [] false)
             (mkTimingDetails "1.5") "42")) = 200
  /\ Written (http_Error msgInvalidJSON 400) <> Some msgInvalidJSON.
Proof.
  split; [reflexivity|]. split; [reflexivity|]. split; [reflexivity|].
  discriminate.
Qed.

(** X3. When the upstream service cannot be reached the answer is 502
    with the message [{"error":"Upstream service unavailable"}], and when
    its answer does not decode the answer is 500 with
    [{"error":"Invalid upstream response"}]; in both cases, whatever
    [response_format] asks for and whatever the schedule, the upstream
    service was called once and nothing is downloaded. *)
Theorem upstream_failure (env : Env) (sched : list Action) (r : Request)
    (reqBody : option (gmap string json)) :
  Body r = DecodeOK reqBody ->
  (forall err,
      Do env (map_size reqBody) (Header r) = DoErr err ->
      handleGenerations env sched r
      = Some ([Post (map_size reqBody) (Header r)],
              http_Error msgUnavailable 502))
  /\ (forall body,
      Do env (map_size reqBody) (Header r) = DoResp body ->
      body ≫= Decode_OriginResponse = None ->
      handleGenerations env sched r
      = Some ([Post (map_size reqBody) (Header r)],
              http_Error msgInvalidUpstream 500))
  /\ list_ascii_of_string msgUnavailable
     = ["{"; "034"; "e"; "r"; "r"; "o"; "r"; "034"; ":"; "034";
        "U"; "p"; "s"; "t"; "r"; "e"; "a"; "m"; " "; "s"; "e"; "r"; "v";
        "i"; "c"; "e"; " "; "u"; "n"; "a"; "v"; "a"; "i"; "l"; "a"; "b";
        "l"; "e"; "034"; "}"]%char
  /\ list_ascii_of_string msgInvalidUpstream
     = ["{"; "034"; "e"; "r"; "r"; "o"; "r"; "034"; ":"; "034";
        "I"; "n"; "v"; "a"; "l"; "i"; "d"; " "; "u"; "p"; "s"; "t"; "r";
        "e"; "a"; "m"; " "; "r"; "e"; "s"; "p"; "o"; "n"; "s"; "e";
        "034"; "}"]%char.
Proof.
  intros Hbody. split; [|split; [|split; reflexivity]].
  - intros err Hdo. unfold handleGenerations. now rewrite Hbody, Hdo.
  - intros body Hdo Hdec. unfold handleGenerations.
    now rewrite Hbody, Hdo, Hdec.
Qed.

Lemma upstream_failure_witness :
  handleGenerations Inputs.upstream_down [] Examples.b64_request
  = Some ([Post (Some {[ "prompt" := JString "a cat";
                         "response_format" := JString "b64_json" ]})
                Examples.bearer],
          http_Error msgUnavailable 502)
  /\ handleGenerations Inputs.upstream_not_json [] Examples.b64_request
     = Some ([Post (Some {[ "prompt" := JString "a cat";
                            "response_format" := JString "b64_json" ]})
                   Examples.bearer],
             http_Error msgInvalidUpstream 500).
Proof.
  split.
  - destruct (upstream_failure Inputs.upstream_down [] Examples.b64_request
                (Some {[ "prompt" := JString "a cat";
                         "response_format" := JString "b64_json" ]})
                eq_refl) as (H & _).
    exact (H (TransportError "connection refused") eq_refl).
  - destruct (upstream_failure Inputs.upstream_not_json []
                Examples.b64_request
                (Some {[ "prompt" := JString "a cat";
                         "response_format" := JString "b64_json" ]})
                eq_refl) as (_ & H & _).
    exact (H None eq_refl eq_refl).
Defined.

(** X4. The status of an answer tells which step failed: 400 exactly when
    the request body does not decode, 502 exactly when the call to the
    upstream service fails, 500 exactly when the upstream answer does not
    decode, and 200 in every other case; no other status is written. *)
Theorem handleGenerations_status (env : Env) (sched : list Action)
    (r : Request) (effects : list Effect) (resp : Response) :
  handleGenerations env sched r = Some (effects, resp) ->
  (StatusCode resp = 400 <-> Body r = DecodeError)
  /\ (StatusCode resp = 502 <->
      exists reqBody err,
        Body r = DecodeOK reqBody
        /\ Do env (map_size reqBody) (Header r) = DoErr err)
  /\ (StatusCode resp = 500 <->
      exists reqBody body,
        Body r = DecodeOK reqBody
        /\ Do env (map_size reqBody) (Header r) = DoResp body
        /\ body ≫= Decode_OriginResponse = None)
  /\ (StatusCode resp = 200 <->
      exists reqBody j originResp,
        Body r = DecodeOK reqBody
        /\ Do env (map_size reqBody) (Header r) = DoResp (Some j)
        /\ Decode_OriginResponse j = Some originResp)
  /\ (StatusCode resp = 200 \/ StatusCode resp = 400
      \/ StatusCode resp = 500 \/ StatusCode resp = 502).
Proof.
  intros Hrun.
  destruct (handleGenerations_cases env sched r effects resp Hrun)
    as [(Hbody & _ & ->)
       |(reqBody & Hbody &
         [(err & Hdo & _ & ->)
         |[(body & Hdo & Hdec & _ & ->)
          |(j & o & Hdo & Hdec & Hans)]])].
  - cbn. unfold StatusBadRequest.
    split; [|split; [|split; [|split]]].
    + now split.
    + split; [discriminate|]. intros (rb & e & H & _). congruence.
    + split; [discriminate|]. intros (rb & b & H & _). congruence.
    + split; [discriminate|]. intros (rb & j & o & H & _). congruence.
    + right. now left.
  - cbn. unfold StatusBadGateway.
    split; [|split; [|split; [|split]]].
    + split; [discriminate|]. congruence.
    + split; [|reflexivity]. intros _. now exists reqBody, err.
    + split; [discriminate|]. intros (rb & b & H1 & H2 & _).
      rewrite Hbody in H1. injection H1 as <-. congruence.
    + split; [discriminate|]. intros (rb & j & o & H1 & H2 & _).
      rewrite Hbody in H1. injection H1 as <-. congruence.
    + now do 3 right.
  - cbn. unfold StatusInternalServerError.
    split; [|split; [|split; [|split]]].
    + split; [discriminate|]. congruence.
    + split; [discriminate|]. intros (rb & e & H1 & H2).
      rewrite Hbody in H1. injection H1 as <-. congruence.
    + split; [|reflexivity]. intros _. now exists reqBody, body.
    + split; [discriminate|]. intros (rb & j & o & H1 & H2 & H3).
      rewrite Hbody in H1. injection H1 as <-.
      rewrite Hdo in H2. injection H2 as ->. cbn in Hdec. congruence.
    + right. right. now left.
  - assert (Hst : StatusCode resp = 200).
    { destruct Hans as [(_ & _ & ->)|(_ & s & _ & _ & _ & ->)];
        reflexivity. }
    rewrite Hst.
    split; [|split; [|split; [|split]]].
    + split; [discriminate|]. congruence.
    + split; [discriminate|]. intros (rb & e & H1 & H2).
      rewrite Hbody in H1. injection H1 as <-. congruence.
    + split; [discriminate|]. intros (rb & b & H1 & H2 & H3).
      rewrite Hbody in H1. injection H1 as <-.
      rewrite Hdo in H2. injection H2 as <-. cbn in H3. congruence.
    + split; [|reflexivity]. intros _. now exists reqBody, j, o.
    + now left.
Qed.

Lemma handleGenerations_status_witness :
  StatusCode (http_Error msgInvalidUpstream 500) = 500 <->
  exists reqBody body,
    Body Examples.plain_request = DecodeOK reqBody
    /\ Do Inputs.upstream_not_json (map_size reqBody)
          (Header Examples.plain_request) = DoResp body
    /\ body ≫= Decode_OriginResponse = None.
Proof.
  apply (handleGenerations_status Inputs.upstream_not_json []
           Examples.plain_request
           [Post (Some {[ "prompt" := JString "a cat" ]}) Examples.bearer]
           (http_Error msgInvalidUpstream 500) eq_refl).
Defined.

(** ** More on the fan-out *)

Section FanOut_more.

Local Open Scope nat_scope.

Variable originResp : OriginResponse.
Variable get : nat -> string -> GetResult.

Lemma Inv_reached sched s :
  run originResp get sched (spawned originResp) = Some s ->
  Inv originResp get s.
Proof.
  apply Inv_run, Inv_spawned.
Qed.

(** Every item held by a reachable state is the item of a reference. *)
Lemma results_are_items sched s item :
  run originResp get sched (spawned originResp) = Some s ->
  item ∈ results s ->
  exists i img,
    elems (Images originResp) !! i = Some img
    /\ item = item_of originResp get i.
Proof.
  intros Hrun Hin. destruct (Inv_reached sched s Hrun) as [_ _ _ Hitems _].
  assert (Hin' : item ∈ item_of originResp get
                          <$> seq 0 (capacity originResp)).
  { rewrite <- Hitems. apply elem_of_app. now left. }
  apply list_elem_of_fmap in Hin' as (i & -> & Hi).
  apply elem_of_seq in Hi.
  destruct (lookup_lt_is_Some_2 (elems (Images originResp)) i) as [img Himg];
    [unfold capacity in Hi; lia|].
  now exists i, img.
Qed.

(** The item of a reference whose download does not succeed is blank. *)
Lemma item_of_failed i img :
  elems (Images originResp) !! i = Some img ->
  (forall bytes, get i (URL img) <> GetResp 200 (ReadOK bytes)) ->
  item_of originResp get i = blank.
Proof.
  intros Himg Hfail. rewrite (item_of_at originResp get i img Himg).
  destruct (downloadImage originResp get (URL img) i) as [item|err] eqn:Hsend;
    [|reflexivity].
  apply downloadImage_result in Hsend as (bytes & Hget).
  now destruct (Hfail bytes).
Qed.

End FanOut_more.

(** X5. A download goroutine never blocks on its send: in every state the
    fan-out can reach, each goroutine still running can finish, its
    channel having room for the value. *)
Theorem send_never_blocks (originResp : OriginResponse)
    (get : nat -> string -> GetResult) (sched : list Action) (s : State)
    (i : nat) :
  run originResp get sched (spawned originResp) = Some s ->
  i ∈ running s ->
  exists s', step originResp get s (Finish i) = Some s'.
Proof.
  intros Hrun Hi.
  destruct (Inv_reached originResp get sched s Hrun) as [Hp Hr Hlt _ _].
  pose proof (size_remove get _ _ Hi) as Hsize.
  destruct (lookup_lt_is_Some_2 (elems (Images originResp)) i (Hlt i Hi))
    as [img Himg].
  cbn [FanOut.step]. rewrite bool_decide_eq_true_2 by exact Hi.
  rewrite Himg.
  destruct (downloadImage originResp get (URL img) i);
    rewrite bool_decide_eq_true_2 by lia; eauto.
Qed.

Lemma send_never_blocks_witness :
  exists s',
    step Examples.two_images Examples.second_served
         (mkState {[0%nat]} [mkOpenAIDataItem "AQID" "second"] [] [] 2
                  [Get 1 "https://img/1"])
         (Finish 0) = Some s'.
Proof.
  apply (send_never_blocks Examples.two_images Examples.second_served
           [Finish 1]); [reflexivity|].
  cbn [running]. apply elem_of_singleton. reflexivity.
Defined.

(** X6. When the collecting loop is over, every download goroutine has
    finished and both channels are empty: no goroutine is left behind and
    no value is lost, and nothing further can happen. *)
Theorem fanout_joins_all (originResp : OriginResponse)
    (get : nat -> string -> GetResult) (sched : list Action) (s : State) :
  run originResp get sched (spawned originResp) = Some s ->
  collected s = true ->
  running s = ∅ /\ resultChan s = [] /\ errorChan s = []
  /\ forall a, step originResp get s a = None.
Proof.
  intros Hrun Hc.
  destruct (Inv_collected originResp get s
              (Inv_reached originResp get sched s Hrun) Hc)
    as (Hr & Hrc & Hec & _).
  repeat split; try assumption.
  apply bool_decide_eq_true in Hc.
  intros [i| |]; cbn [FanOut.step].
  - rewrite bool_decide_eq_false_2; [reflexivity|].
    rewrite Hr. apply not_elem_of_empty.
  - now rewrite Hc.
  - now rewrite Hc.
Qed.

Lemma fanout_joins_all_witness :
  step Examples.two_images Examples.second_served
       (mkState ∅ [] []
          [mkOpenAIDataItem "AQID" "second"; mkOpenAIDataItem "" ""]
          0 [Get 1 "https://img/1"; Get 0 "https://img/0"]) RecvResult
  = None.
Proof.
  destruct (fanout_joins_all Examples.two_images Examples.second_served
              [Finish 1; Finish 0; RecvResult; RecvError]
              (mkState ∅ [] []
                 [mkOpenAIDataItem "AQID" "second"; mkOpenAIDataItem "" ""]
                 0 [Get 1 "https://img/1"; Get 0 "https://img/0"])
              eq_refl eq_refl) as (_ & _ & _ & H).
  apply H.
Defined.

(** X7. Data and prompt are never mixed between references: every item
    the loop has collected is either blank or holds the encoded bytes of
    one successfully downloaded reference together with the revised
    prompt of that same reference, and its inline data decodes to those
    bytes. *)
Theorem results_pair_data_with_prompt (originResp : OriginResponse)
    (get : nat -> string -> GetResult) (sched : list Action) (s : State)
    (item : OpenAIDataItem) :
  run originResp get sched (spawned originResp) = Some s ->
  item ∈ results s ->
  item = mkOpenAIDataItem "" ""
  \/ exists i img bytes,
       elems (Images originResp) !! i = Some img
       /\ get i (URL img) = GetResp 200 (ReadOK bytes)
       /\ item = mkOpenAIDataItem (Base64.EncodeToString bytes)
                                  (RevisedPrompt img)
       /\ Base64.DecodeString (B64JSON item) = Some bytes.
Proof.
  intros Hrun Hin.
  destruct (results_are_items originResp get sched s item Hrun Hin)
    as (i & img & Himg & ->).
  rewrite (item_of_at originResp get i img Himg).
  destruct (downloadImage originResp get (URL img) i) as [item|err] eqn:Hsend;
    [|now left].
  right. destruct (downloadImage_result _ _ _ _ _ Hsend) as (bytes & Hget).
  rewrite (downloadImage_OK originResp get _ _ _ Hget) in Hsend.
  injection Hsend as <-. exists i, img, bytes.
  unfold prompt_at. rewrite Himg. cbn [default B64JSON].
  repeat split; try assumption.
  apply (DecodeString_EncodeToString_le (List.length bytes)). lia.
Qed.

Lemma results_pair_data_with_prompt_witness :
  mkOpenAIDataItem "AQID" "second" = mkOpenAIDataItem "" ""
  \/ exists i img bytes,
       elems (Images Examples.two_images) !! i = Some img
       /\ Examples.second_served i (URL img) = GetResp 200 (ReadOK bytes)
       /\ mkOpenAIDataItem "AQID" "second"
          = mkOpenAIDataItem (Base64.EncodeToString bytes)
                             (RevisedPrompt img)
       /\ Base64.DecodeString (B64JSON (mkOpenAIDataItem "AQID" "second"))
          = Some bytes.
Proof.
  apply (results_pair_data_with_prompt Examples.two_images
           Examples.second_served
           [Finish 1; Finish 0; RecvResult; RecvError]
           (mkState ∅ [] []
              [mkOpenAIDataItem "AQID" "second"; mkOpenAIDataItem "" ""]
              0 [Get 1 "https://img/1"; Get 0 "https://img/0"])
           _ eq_refl).
  apply list_elem_of_here.
Defined.

(** X8. When every download fails, the results are exactly one blank item
    for each reference, whatever the schedule. *)
Theorem all_downloads_fail (originResp : OriginResponse)
    (get : nat -> string -> GetResult) (sched : list Action) (s : State) :
  (forall i img bytes,
      elems (Images originResp) !! i = Some img ->
      get i (URL img) <> GetResp 200 (ReadOK bytes)) ->
  run originResp get sched (spawned originResp) = Some s ->
  collected s = true ->
  results s = replicate (List.length (elems (Images originResp)))
                        (mkOpenAIDataItem "" "").
Proof.
  intros Hfail Hrun Hc.
  destruct (Inv_collected originResp get s
              (Inv_reached originResp get sched s Hrun) Hc)
    as (_ & _ & _ & _ & Hperm & _).
  assert (Hall : forall n k,
             (k + n <= capacity originResp)%nat ->
             item_of originResp get <$> seq k n = replicate n blank).
  { induction n as [|n IH]; intros k Hk; [reflexivity|].
    cbn [seq fmap list_fmap replicate].
    rewrite IH by lia. f_equal.
    destruct (lookup_lt_is_Some_2 (elems (Images originResp)) k)
      as [img Himg]; [unfold capacity in Hk; lia|].
    apply (item_of_failed originResp get k img Himg).
    intros bytes. now apply Hfail. }
  rewrite (Hall (capacity originResp) 0%nat) in Hperm by lia.
  symmetry. apply replicate_Permutation. now symmetry.
Qed.

Lemma all_downloads_fail_witness :
  [mkOpenAIDataItem "" ""; mkOpenAIDataItem "" ""]
  = replicate 2 (mkOpenAIDataItem "" "").
Proof.
  apply (all_downloads_fail Examples.two_images Inputs.none_served
           [Finish 1; Finish 0; RecvError; RecvError]
           (mkState ∅ [] []
              [mkOpenAIDataItem "" ""; mkOpenAIDataItem "" ""]
              0 [Get 1 "https://img/1"; Get 0 "https://img/0"])).
  - intros i img bytes _. discriminate.
  - reflexivity.
  - reflexivity.
Defined.

(** ** The network calls of a request *)

(** X9. Whenever the request body decodes, the upstream service is called
    exactly once, before anything else, with the mapped body and with the
    headers of the request as they came (credentials included); every
    other call is a download.  Outside the inline branch, and whenever the
    status is not 200, nothing is downloaded; in the inline branch every
    reference is downloaded exactly once, from its own URL, references
    with equal URLs included. *)
Theorem handleGenerations_network_calls (env : Env) (sched : list Action)
    (r : Request) (reqBody : option (gmap string json))
    (effects : list Effect) (resp : Response) :
  Body r = DecodeOK reqBody ->
  handleGenerations env sched r = Some (effects, resp) ->
  exists downloads,
    effects = Post (map_size reqBody) (Header r) :: downloads
    /\ Forall (fun e => is_Get e = true) downloads
    /\ (index reqBody "response_format" <> Some (JString "b64_json") ->
        downloads = [])
    /\ (StatusCode resp <> 200 -> downloads = [])
    /\ (forall j originResp,
           Do env (map_size reqBody) (Header r) = DoResp (Some j) ->
           Decode_OriginResponse j = Some originResp ->
           index reqBody "response_format" = Some (JString "b64_json") ->
           downloads
           ≡ₚ get_of originResp
                <$> seq 0 (List.length (elems (Images originResp)))).
Proof.
  intros Hbody Hrun.
  destruct (handleGenerations_cases env sched r effects resp Hrun)
    as [(Hbody' & _)|(rb & Hbody' & Hcases)]; [congruence|].
  rewrite Hbody in Hbody'. injection Hbody' as <-.
  destruct Hcases as [(err & Hdo & -> & ->)
                     |[(body & Hdo & Hdec & -> & ->)
                      |(j & o & Hdo & Hdec &
                        [(Hfmt & -> & ->)
                        |(Hfmt & s & Hs & Hc & -> & ->)])]].
  - exists []. repeat split; try constructor.
    intros j o Hdo'. congruence.
  - exists []. repeat split; try constructor.
    intros j o Hdo' Hdec'. rewrite Hdo in Hdo'. injection Hdo' as ->.
    cbn in Hdec. congruence.
  - exists []. repeat split; try constructor.
    intros j' o' _ _ Hfmt'. contradiction.
  - destruct (Inv_collected o (httpGet env) s
                (Inv_reached o (httpGet env) sched s Hs) Hc)
      as (_ & _ & _ & _ & _ & Hgets).
    exists (gets s). split; [reflexivity|]. split; [|split; [|split]].
    + rewrite Hgets. apply Forall_fmap, Forall_forall. now intros i _.
    + intros Hne. contradiction.
    + intros Hne. now destruct Hne.
    + intros j' o' Hdo' Hdec' _. rewrite Hdo in Hdo'. injection Hdo' as <-.
      rewrite Hdec in Hdec'. injection Hdec' as <-. exact Hgets.
Qed.

Lemma handleGenerations_network_calls_witness :
  exists downloads,
    [Post (Some {[ "prompt" := JString "a cat";
                   "response_format" := JString "b64_json" ]})
          Examples.bearer;
     Get 1 "https://img/1"; Get 0 "https://img/0"]
    = Post (map_size (Some {[ "prompt" := JString "a cat";
                              "response_format" := JString "b64_json" ]}))
           (Header Examples.b64_request) :: downloads
    /\ Forall (fun e => is_Get e = true) downloads.
Proof.
  destruct (handleGenerations_network_calls Inputs.upstream_two
              [Finish 1; Finish 0; RecvResult; RecvError]
              Examples.b64_request
              (Some {[ "prompt" := JString "a cat";
                       "response_format" := JString "b64_json" ]})
              [Post (Some {[ "prompt" := JString "a cat";
                             "response_format" := JString "b64_json" ]})
                    Examples.bearer;
               Get 1 "https://img/1"; Get 0 "https://img/0"]
              (Encode_OpenAIResponse
                 (mkOpenAIResponse 1719501163
                    [mkOpenAIDataItem "AQID" "second";
                     mkOpenAIDataItem "" ""]))
              eq_refl eq_refl)
    as (downloads & Heff & Hall & _).
  exists downloads. now split.
Defined.

(** ** More on decoding the upstream response *)

Section Decode_more.

Context {S : Type} (field : S -> string * json -> option S).

(** What every member keeps, the whole object keeps. *)
Lemma members_into_inv (P : S -> Prop) :
  (forall s m s', P s -> field s m = Some s' -> P s') ->
  forall members cur s',
    P cur -> members_into field cur members = Some s' -> P s'.
Proof.
  intros Hstep. induction members as [|m ms IH]; intros cur s' Hcur Hdec.
  - cbn in Hdec. congruence.
  - rewrite members_into_cons in Hdec.
    destruct (field cur m) as [s1|] eqn:Hm; [|discriminate].
    cbn in Hdec. eapply IH; [|exact Hdec]. eapply Hstep; eassumption.
Qed.

(** A member that cannot be decoded makes the whole object fail. *)
Lemma members_into_fails before m after cur :
  (forall s, field s m = None) ->
  members_into field cur (before ++ m :: after) = None.
Proof.
  intros Hm. rewrite members_into_app.
  destruct (members_into field cur before) as [s|]; [|reflexivity].
  cbn [mbind option_bind]. now rewrite members_into_cons, Hm.
Qed.

(** Two members that decode alike can stand for one another. *)
Lemma members_into_member_ext before m m' after cur :
  (forall s, field s m = field s m') ->
  members_into field cur (before ++ m :: after)
  = members_into field cur (before ++ m' :: after).
Proof.
  intros Hm. rewrite !members_into_app.
  destruct (members_into field cur before) as [s|]; [|reflexivity].
  cbn [mbind option_bind]. now rewrite !members_into_cons, Hm.
Qed.

(** An object of unknown members only leaves the struct as it is. *)
Lemma members_into_unknown (known : string -> bool) members cur :
  (forall s m, known m.1 = false -> field s m = Some s) ->
  Forall (fun m => known m.1 = false) members ->
  members_into field cur members = Some cur.
Proof.
  intros Hskip Hall. rewrite <- (members_into_filter field known) by exact Hskip.
  replace (List.filter (fun m => known m.1) members) with
    (@nil (string * json)); [reflexivity|].
  induction Hall as [|m ms Hm _ IH]; [reflexivity|].
  cbn [List.filter]. now rewrite Hm.
Qed.

End Decode_more.

Lemma unmarshal_Image_no_extra cur j img :
  unmarshal_Image cur j = Some img -> no_extra cur -> no_extra img.
Proof.
  intros Hdec Hcur. destruct j; try discriminate.
  - cbn in Hdec. congruence.
  - cbn [unmarshal_Image] in Hdec.
    apply (members_into_inv unmarshal_Image_field no_extra) with
      (members := members) (cur := cur); [|exact Hcur|exact Hdec].
    intros s [key v] s' Hs. unfold unmarshal_Image_field. cbn [fst snd].
    destruct (field_match "url" key).
    + destruct (unmarshal_string (URL s) v); [|discriminate].
      now intros [= <-].
    + destruct (field_match "revised_prompt" key).
      * destruct (unmarshal_string (RevisedPrompt s) v); [|discriminate].
        now intros [= <-].
      * congruence.
Qed.

Lemma unmarshal_elems_no_extra xs :
  forall slots els,
    unmarshal_elems slots xs = Some els ->
    Forall no_extra slots -> Forall no_extra els.
Proof.
  induction xs as [|x xs IH]; intros slots els Hdec Hslots.
  - cbn in Hdec. injection Hdec as <-. constructor.
  - cbn [unmarshal_elems] in Hdec.
    destruct (unmarshal_Image (hd zero_Image slots) x) as [img|] eqn:Himg;
      [|discriminate].
    cbn in Hdec.
    destruct (unmarshal_elems (tl slots) xs) as [rest|] eqn:Hrest;
      [|discriminate].
    cbn in Hdec. injection Hdec as <-. constructor.
    + apply (unmarshal_Image_no_extra _ _ _ Himg).
      destruct Hslots; [reflexivity|assumption].
    + apply (IH _ _ Hrest). destruct Hslots; [constructor|assumption].
Qed.

Lemma unmarshal_Images_no_extra cur j sl :
  unmarshal_Images cur j = Some sl ->
  Forall no_extra (backing cur) -> Forall no_extra (backing sl).
Proof.
  intros Hdec Hcur. destruct j as [| | | |xs|]; try discriminate.
  - cbn in Hdec. injection Hdec as <-. constructor.
  - destruct xs as [|x xs].
    + cbn in Hdec. injection Hdec as <-. constructor.
    + unfold unmarshal_Images in Hdec.
      destruct (unmarshal_elems (backing cur) (x :: xs)) as [els|] eqn:Hels;
        [|discriminate].
      cbn in Hdec. injection Hdec as <-. unfold backing at 1. cbn [elems spare].
      apply Forall_app. split.
      * exact (unmarshal_elems_no_extra _ _ _ Hels Hcur).
      * now apply Forall_drop.
Qed.

Lemma Decode_OriginResponse_no_extra j o :
  Decode_OriginResponse j = Some o -> Forall no_extra (backing (Images o)).
Proof.
  unfold Decode_OriginResponse. intros Hdec.
  destruct j as [| | | | |members]; try discriminate.
  - cbn in Hdec. injection Hdec as <-. constructor.
  - cbn [unmarshal_OriginResponse] in Hdec.
    apply (members_into_inv unmarshal_OriginResponse_field
             (fun o => Forall no_extra (backing (Images o))))
      with (members := members) (cur := zero_OriginResponse);
      [|constructor|exact Hdec].
    intros s [key v] s' Hs. unfold unmarshal_OriginResponse_field.
    cbn [fst snd].
    destruct (field_match "images" key).
    + destruct (unmarshal_Images (Images s) v) as [imgs|] eqn:Himgs;
        [|discriminate].
      intros [= <-]. exact (unmarshal_Images_no_extra _ _ _ Himgs Hs).
    + destruct (field_match "timings" key).
      * destruct (unmarshal_TimingDetails (Timings s) v); [|discriminate].
        now intros [= <-].
      * destruct (field_match "seed" key); [|congruence].
        destruct (unmarshal_Number (Seed s) v); [|discriminate].
        now intros [= <-].
Qed.

(** X10. [ExtraFields] never captures anything: whatever the upstream body
    holds, known or unknown, [ExtraFields] is [nil] in every image of the
    decoded response. *)
Theorem ExtraFields_stays_nil (j : json) (originResp : OriginResponse) :
  Decode_OriginResponse j = Some originResp ->
  Forall (fun img => ExtraFields img = None) (elems (Images originResp)).
Proof.
  intros Hdec. pose proof (Decode_OriginResponse_no_extra j _ Hdec) as H.
  unfold backing in H. apply Forall_app in H as [H _]. exact H.
Qed.

Lemma ExtraFields_stays_nil_witness :
  Forall (fun img => ExtraFields img = None)
         [mkImage "https://img/0" "first" None].
Proof.
  exact (ExtraFields_stays_nil
           (JObject [("images",
                      JArray [JObject [("url", JString "https://img/0");
                                       ("revised_prompt", JString "first");
                                       ("ExtraFields", JString "kept?");
                                       ("nsfw", JBool false)]])])
           (mkOriginResponse
              (mkSlice [mkImage "https://img/0" "first" None] [] false)
              (mkTimingDetails "") "")
           eq_refl).
Defined.

(** X11. [seed] and [timings.inference] may come as a number or as a
    string that holds a number: both decode to the same response.  A
    [seed] string that does not hold a number makes the decoding fail,
    wherever the member stands. *)
Theorem number_or_string (before after : list (string * json))
    (s : string) :
  (isValidNumber s = true ->
   Decode_OriginResponse (JObject (before ++ ("seed", JString s) :: after))
   = Decode_OriginResponse (JObject (before ++ ("seed", JNumber s) :: after)))
  /\ (isValidNumber s = true ->
      forall tbefore tafter,
        Decode_OriginResponse
          (JObject (before ++
             ("timings",
              JObject (tbefore ++ ("inference", JString s) :: tafter))
             :: after))
        = Decode_OriginResponse
            (JObject (before ++
               ("timings",
                JObject (tbefore ++ ("inference", JNumber s) :: tafter))
               :: after)))
  /\ (isValidNumber s = false ->
      Decode_OriginResponse
        (JObject (before ++ ("seed", JString s) :: after)) = None).
Proof.
  unfold Decode_OriginResponse. cbn [unmarshal_OriginResponse].
  split; [|split].
  - intros Hs. apply members_into_member_ext. intros o.
    unfold unmarshal_OriginResponse_field. cbn. now rewrite Hs.
  - intros Hs tbefore tafter. apply members_into_member_ext. intros o.
    unfold unmarshal_OriginResponse_field.
    replace (field_match "images" ("timings", JObject
               (tbefore ++ ("inference", JString s) :: tafter)).1)
      with false by reflexivity.
    replace (field_match "images" ("timings", JObject
               (tbefore ++ ("inference", JNumber s) :: tafter)).1)
      with false by reflexivity.
    replace (field_match "timings" ("timings", JObject
               (tbefore ++ ("inference", JString s) :: tafter)).1)
      with true by reflexivity.
    replace (field_match "timings" ("timings", JObject
               (tbefore ++ ("inference", JNumber s) :: tafter)).1)
      with true by reflexivity.
    cbn [snd unmarshal_TimingDetails].
    f_equal. apply members_into_member_ext. intros t.
    unfold unmarshal_TimingDetails_field. cbn. now rewrite Hs.
  - intros Hs. apply members_into_fails. intros o.
    unfold unmarshal_OriginResponse_field. cbn. now rewrite Hs.
Qed.

Lemma number_or_string_witness :
  Decode_OriginResponse (JObject [("seed", JString "42")])
  = Decode_OriginResponse (JObject [("seed", JNumber "42")])
  /\ Decode_OriginResponse (JObject [("seed", JString "forty-two")]) = None.
Proof.
  destruct (number_or_string [] [] "42") as (H & _).
  destruct (number_or_string [] [] "forty-two") as (_ & _ & H').
  split; [exact (H eq_refl)|exact (H' eq_refl)].
Defined.

(** X12. An upstream answer that is an object with none of the known
    members, such as an error object, is not an error for the handler:
    it decodes to the zero response.  The pass-through branch then
    answers 200 with [images] null and [timings.inference] and [seed]
    zero; the inline branch answers 200 with no item and downloads
    nothing. *)
Theorem unknown_members_only (env : Env) (r : Request)
    (reqBody : option (gmap string json))
    (members : list (string * json)) :
  Body r = DecodeOK reqBody ->
  Do env (map_size reqBody) (Header r) = DoResp (Some (JObject members)) ->
  Forall (fun m => known_OriginResponse m.1 = false) members ->
  Decode_OriginResponse (JObject members) = Some zero_OriginResponse
  /\ (index reqBody "response_format" <> Some (JString "b64_json") ->
      forall sched,
        handleGenerations env sched r
        = Some ([Post (map_size reqBody) (Header r)],
                Encode_OriginResponse zero_OriginResponse))
  /\ (index reqBody "response_format" = Some (JString "b64_json") ->
      handleGenerations env [] r
      = Some ([Post (map_size reqBody) (Header r)],
              Encode_OpenAIResponse (mkOpenAIResponse (Now env) [])))
  /\ marshal_OriginResponse zero_OriginResponse
     = Some (JObject [("images", JNull);
                      ("timings", JObject [("inference", JNumber "0")]);
                      ("seed", JNumber "0")]).
Proof.
  intros Hbody Hdo Hall.
  assert (Hdec : Decode_OriginResponse (JObject members)
                 = Some zero_OriginResponse).
  { unfold Decode_OriginResponse. cbn [unmarshal_OriginResponse].
    apply (members_into_unknown _ known_OriginResponse); [|exact Hall].
    intros o m. apply unmarshal_OriginResponse_field_unknown. }
  split; [exact Hdec|]. split; [|split; [|reflexivity]].
  - intros Hfmt sched.
    destruct (handleGenerations_passthrough env sched r reqBody Hbody Hfmt)
      as (resp & Hrun & Hresp).
    now rewrite (Hresp _ _ Hdo Hdec) in Hrun.
  - intros Hfmt. unfold handleGenerations.
    rewrite Hbody, Hdo. cbn [mbind option_bind]. rewrite Hdec.
    apply responseFormat_b64 in Hfmt. now rewrite Hfmt.
Qed.

Lemma unknown_members_only_witness :
  handleGenerations Inputs.upstream_error_object [] Examples.plain_request
  = Some ([Post (Some {[ "prompt" := JString "a cat" ]}) Examples.bearer],
          Encode_OriginResponse zero_OriginResponse)
  /\ handleGenerations Inputs.upstream_error_object [] Examples.b64_request
     = Some ([Post (Some {[ "prompt" := JString "a cat";
                            "response_format" := JString "b64_json" ]})
                   Examples.bearer],
             Encode_OpenAIResponse (mkOpenAIResponse 1719501163 [])).
Proof.
  split.
  - destruct (unknown_members_only Inputs.upstream_error_object
                Examples.plain_request
                (Some {[ "prompt" := JString "a cat" ]})
                [("code", JNumber "20012");
                 ("message", JString "Model disabled")]
                eq_refl eq_refl) as (_ & H & _).
    + repeat constructor.
    + apply H. discriminate.
  - destruct (unknown_members_only Inputs.upstream_error_object
                Examples.b64_request
                (Some {[ "prompt" := JString "a cat";
                         "response_format" := JString "b64_json" ]})
                [("code", JNumber "20012");
                 ("message", JString "Model disabled")]
                eq_refl eq_refl) as (_ & _ & H & _).
    + repeat constructor.
    + apply H. reflexivity.
Defined.

(** X13. An upstream answer whose [images] (the key in any letter case)
    is neither an array nor null is rejected as a whole: whatever its
    other members are and wherever [images] stands among them, the
    answer is 500 and nothing is downloaded. *)
Theorem images_must_be_array (env : Env) (sched : list Action)
    (r : Request) (reqBody : option (gmap string json))
    (before after : list (string * json)) (key : string) (value : json) :
  Body r = DecodeOK reqBody ->
  Do env (map_size reqBody) (Header r)
  = DoResp (Some (JObject (before ++ (key, value) :: after))) ->
  field_match "images" key = true ->
  value <> JNull ->
  (forall xs, value <> JArray xs) ->
  Decode_OriginResponse (JObject (before ++ (key, value) :: after)) = None
  /\ handleGenerations env sched r
     = Some ([Post (map_size reqBody) (Header r)],
             http_Error msgInvalidUpstream 500).
Proof.
  intros Hbody Hdo Hkey Hnull Harr.
  assert (Hdec : Decode_OriginResponse
                   (JObject (before ++ (key, value) :: after)) = None).
  { unfold Decode_OriginResponse. cbn [unmarshal_OriginResponse].
    apply members_into_fails. intros o.
    unfold unmarshal_OriginResponse_field. cbn [fst snd]. rewrite Hkey.
    destruct value as [| | | |xs|]; try reflexivity.
    - contradiction.
    - now destruct (Harr xs). }
  split; [exact Hdec|].
  unfold handleGenerations. rewrite Hbody, Hdo. cbn [mbind option_bind].
  now rewrite Hdec.
Qed.

Lemma images_must_be_array_witness :
  handleGenerations Inputs.upstream_images_string [] Examples.b64_request
  = Some ([Post (Some {[ "prompt" := JString "a cat";
                         "response_format" := JString "b64_json" ]})
                Examples.bearer],
          http_Error msgInvalidUpstream 500).
Proof.
  apply (images_must_be_array Inputs.upstream_images_string []
           Examples.b64_request
           (Some {[ "prompt" := JString "a cat";
                    "response_format" := JString "b64_json" ]})
           [("seed", JNumber "1")] [] "images"%string
           (JString "https://img/0") eq_refl eq_refl eq_refl).
  - discriminate.
  - discriminate.
Defined.

(** ** More on the base64 transform *)

Section Base64_more.
Import Base64.

Lemma EncodeToString_length_le n :
  forall src : list byte, (List.length src <= n)%nat ->
    String.length (EncodeToString src)
    = (4 * ((List.length src + 2) / 3))%nat.
Proof.
  induction n as [n IH] using lt_wf_ind. intros src Hlen.
  destruct src as [|b0 [|b1 [|b2 rest]]]; try reflexivity.
  cbn [EncodeToString String.length List.length].
  rewrite (IH (List.length rest)) by (cbn [List.length] in Hlen; lia).
  replace (S (S (S (List.length rest))) + 2)%nat
    with (1 * 3 + (List.length rest + 2))%nat by lia.
  rewrite Nat.div_add_l by lia. lia.
Qed.

Lemma EncodeToString_inj_aux (a b : list byte) :
  EncodeToString a = EncodeToString b -> a = b.
Proof.
  intros H.
  pose proof (DecodeString_EncodeToString_le (List.length a) a
                (Nat.le_refl _)) as Ha.
  pose proof (DecodeString_EncodeToString_le (List.length b) b
                (Nat.le_refl _)) as Hb.
  rewrite H in Ha. congruence.
Qed.

End Base64_more.

(** X14. The inline data of [n] bytes is [4 * ceil(n / 3)] characters
    long: a third longer than the image, rounded up to a multiple of
    four. *)
Theorem EncodeToString_length (data : list byte) :
  String.length (Base64.EncodeToString data)
  = (4 * ((List.length data + 2) / 3))%nat.
Proof.
  apply (EncodeToString_length_le (List.length data)). lia.
Qed.

(** X15. Different images never get the same inline data, and the inline
    data is empty only for an empty image: a successful download with an
    empty body and no revised prompt sends the same item as the one
    appended for a failure. *)
Theorem EncodeToString_injective :
  (forall a b : list byte,
      Base64.EncodeToString a = Base64.EncodeToString b -> a = b)
  /\ (forall data : list byte,
      Base64.EncodeToString data = EmptyString <-> data = [])
  /\ (forall originResp get url index data,
      get index url = GetResp 200 (ReadOK data) ->
      (downloadImage originResp get url index
       = SendResult (mkOpenAIDataItem "" "")
       <-> data = [] /\ prompt_at originResp index = EmptyString)).
Proof.
  assert (Hempty : forall data : list byte,
             Base64.EncodeToString data = EmptyString <-> data = []).
  { intros data. split; [|now intros ->].
    intros H. now apply EncodeToString_inj_aux. }
  split; [exact EncodeToString_inj_aux|]. split; [exact Hempty|].
  intros originResp get url index data Hget.
  rewrite (downloadImage_OK originResp get url index data Hget).
  split.
  - intros [= Hdata Hprompt]. split; [now apply Hempty|exact Hprompt].
  - intros [-> ->]. reflexivity.
Qed.

Lemma EncodeToString_injective_witness :
  downloadImage zero_OriginResponse
                (fun _ _ => GetResp 200 (ReadOK [])) "https://img/0" 0
  = SendResult (mkOpenAIDataItem "" "").
Proof.
  destruct EncodeToString_injective as (_ & _ & H).
  apply (H zero_OriginResponse (fun _ _ => GetResp 200 (ReadOK []))
           "https://img/0"%string 0%nat [] eq_refl).
  split; reflexivity.
Defined.

(** ** The pass-through answer, read again *)

Section marshal_facts.

Lemma marshal_Number_inv n x :
  marshal_Number n = Some x ->
  exists n', x = JNumber n' /\ isValidNumber n' = true
             /\ n' = (if String.eqb n "" then "0"%string else n).
Proof.
  unfold marshal_Number. destruct (String.eqb n "") eqn:E.
  - intros [= <-]. now exists "0"%string.
  - destruct (isValidNumber n) eqn:V; [|discriminate].
    intros [= <-]. now exists n.
Qed.

Lemma marshal_Number_again n :
  isValidNumber n = true -> marshal_Number n = Some (JNumber n).
Proof.
  intros V. unfold marshal_Number.
  destruct (String.eqb n "") eqn:E; [|now rewrite V].
  apply String.eqb_eq in E. subst n. discriminate V.
Qed.

Lemma unmarshal_Image_marshal img :
  no_extra img -> unmarshal_Image zero_Image (marshal_Image img) = Some img.
Proof.
  destruct img as [url prompt extra]. unfold no_extra. cbn [ExtraFields].
  intros ->. unfold marshal_Image. cbn [URL RevisedPrompt unmarshal_Image].
  rewrite members_into_cons.
  change (unmarshal_Image_field zero_Image ("url"%string, JString url))
    with (Some (mkImage url "" None)).
  cbn [mbind option_bind].
  destruct (String.eqb prompt "") eqn:E.
  - apply String.eqb_eq in E. now subst prompt.
  - rewrite members_into_cons.
    change (unmarshal_Image_field (mkImage url "" None)
              ("revised_prompt"%string, JString prompt))
      with (Some (mkImage url prompt None)).
    reflexivity.
Qed.

Lemma unmarshal_elems_marshal imgs :
  Forall no_extra imgs ->
  unmarshal_elems [] (marshal_Image <$> imgs) = Some imgs.
Proof.
  induction 1 as [|img imgs Himg _ IH]; [reflexivity|].
  rewrite fmap_cons. cbn [unmarshal_elems hd tl].
  rewrite (unmarshal_Image_marshal img Himg). cbn [mbind option_bind].
  now rewrite IH.
Qed.

Lemma unmarshal_Images_marshal (imgs : slice Image) :
  Forall no_extra (elems imgs) ->
  (is_nil imgs = true -> elems imgs = []) ->
  unmarshal_Images nil_slice (marshal_Images imgs)
  = Some (mkSlice (elems imgs) [] (is_nil imgs)).
Proof.
  intros Hextra Hnil. unfold marshal_Images.
  destruct (is_nil imgs) eqn:E.
  - now rewrite (Hnil eq_refl).
  - destruct (elems imgs) as [|img rest] eqn:Hel; [reflexivity|].
    rewrite fmap_cons. unfold unmarshal_Images. rewrite <- fmap_cons.
    change (backing nil_slice) with (@nil Image).
    rewrite (unmarshal_elems_marshal (img :: rest) Hextra).
    cbn [mbind option_bind]. now rewrite drop_nil.
Qed.

Lemma Decode_OriginResponse_nil j o :
  Decode_OriginResponse j = Some o ->
  is_nil (Images o) = true -> elems (Images o) = [].
Proof.
  unfold Decode_OriginResponse. intros Hdec.
  destruct j as [| | | | |members]; try discriminate.
  - cbn in Hdec. now injection Hdec as <-.
  - cbn [unmarshal_OriginResponse] in Hdec.
    apply (members_into_inv unmarshal_OriginResponse_field
             (fun o => is_nil (Images o) = true -> elems (Images o) = []))
      with (members := members) (cur := zero_OriginResponse);
      [|reflexivity|exact Hdec].
    intros s [key v] s' Hs. unfold unmarshal_OriginResponse_field.
    cbn [fst snd].
    destruct (field_match "images" key).
    + destruct v as [| | | |xs|]; try discriminate.
      * now intros [= <-].
      * destruct xs as [|x xs]; [now intros [= <-]|].
        unfold unmarshal_Images.
        destruct (unmarshal_elems (backing (Images s)) (x :: xs));
          [|discriminate].
        cbn. intros [= <-]. discriminate.
    + destruct (field_match "timings" key).
      * destruct (unmarshal_TimingDetails (Timings s) v); [|discriminate].
        now intros [= <-].
      * destruct (field_match "seed" key); [|now intros [= <-]].
        destruct (unmarshal_Number (Seed s) v); [|discriminate].
        now intros [= <-].
Qed.

End marshal_facts.

(** X16. The pass-through answer is itself a response the structs
    decode: decoding the JSON written for a decoded upstream response
    gives the same images (nil or not, with the same URLs and prompts, a
    prompt left out for being empty included), and encoding that again
    writes the same JSON. *)
Theorem passthrough_answer_decodes_back (j j' : json)
    (originResp : OriginResponse) :
  Decode_OriginResponse j = Some originResp ->
  marshal_OriginResponse originResp = Some j' ->
  exists again,
    Decode_OriginResponse j' = Some again
    /\ elems (Images again) = elems (Images originResp)
    /\ is_nil (Images again) = is_nil (Images originResp)
    /\ marshal_OriginResponse again = Some j'.
Proof.
  intros Hdec Hmar.
  pose proof (ExtraFields_free := Decode_OriginResponse_no_extra j _ Hdec).
  unfold backing in ExtraFields_free.
  apply Forall_app in ExtraFields_free as [Hextra _].
  pose proof (Decode_OriginResponse_nil j _ Hdec) as Hnil.
  unfold marshal_OriginResponse in Hmar.
  destruct (marshal_Number (Inference (Timings originResp)))
    as [inference|] eqn:Hinf; [|discriminate].
  destruct (marshal_Number (Seed originResp)) as [seed|] eqn:Hseed;
    [|discriminate].
  cbn [mbind option_bind] in Hmar. injection Hmar as <-.
  apply marshal_Number_inv in Hinf as (inf' & -> & Vinf & _).
  apply marshal_Number_inv in Hseed as (seed' & -> & Vseed & _).
  exists (mkOriginResponse
            (mkSlice (elems (Images originResp)) []
                     (is_nil (Images originResp)))
            (mkTimingDetails inf') seed').
  split; [|split; [reflexivity|split; [reflexivity|]]].
  - unfold Decode_OriginResponse. cbn [unmarshal_OriginResponse].
    rewrite members_into_cons.
    change (unmarshal_OriginResponse_field zero_OriginResponse
              ("images"%string, marshal_Images (Images originResp)))
      with (imgs ← unmarshal_Images nil_slice
                      (marshal_Images (Images originResp));
            Some (mkOriginResponse imgs (mkTimingDetails "") "")).
    rewrite (unmarshal_Images_marshal _ Hextra Hnil).
    reflexivity.
  - unfold marshal_OriginResponse. cbn [Timings Inference Seed Images].
    rewrite (marshal_Number_again _ Vinf), (marshal_Number_again _ Vseed).
    reflexivity.
Qed.

Lemma passthrough_answer_decodes_back_witness :
  exists again,
    Decode_OriginResponse
      (JObject
         [("images",
           JArray [JObject [("url", JString "https://img/0");
                            ("revised_prompt", JString "first")]]);
          ("timings", JObject [("inference", JNumber "1.5")]);
          ("seed", JNumber "42")]) = Some again
    /\ elems (Images again) = [mkImage "https://img/0" "first" None].
Proof.
  destruct (passthrough_answer_decodes_back Examples.drifted
              (JObject
                 [("images",
                   JArray [JObject [("url", JString "https://img/0");
                                    ("revised_prompt", JString "first")]]);
                  ("timings", JObject [("inference", JNumber "1.5")]);
                  ("seed", JNumber "42")])
              (mkOriginResponse
                 (mkSlice [mkImage "https://img/0" "first" None] [] false)
                 (mkTimingDetails "1.5") "42")
              eq_refl eq_refl) as (again & Hdec & Hel & _).
  exists again. now split.
Defined.
